(** * introship: the company enrichment pipeline

    A shallow embedding of [src/app/api/companies/route.ts] (the places
    lookup, the e-mail filter, the field extractors, the website scraper
    with its retry loop and HTML heuristics, and the POST handler) and of
    [getScrapeStatus] from [src/app/components/CompanyTable.tsx].

    Conventions of the embedding.
    - A JavaScript string is a [string]; every character is read as one
      UTF-16 code unit in the range U+0000..U+00FF, so [String.length] is
      the JavaScript [length].
    - A JavaScript number is a primitive binary64 [float].
    - A value of type [any] is a [value]; property access that fails on
      [null]/[undefined] raises, optional chaining does not.
    - Code that may throw returns a [completion]. *)

From Corelib Require Import PrimFloat.
From Stdlib Require Import Bool Arith Lia List String Ascii Permutation Sorted.
From Stdlib Require Import DecimalString.
Import ListNotations.

Set Warnings "-register-all,-abstract-large-number,-inexact-float".

Local Open Scope string_scope.
Local Open Scope list_scope.

(* ================================================================= *)
(** ** JavaScript strings *)

Module JsString.

(** ECMAScript [WhiteSpace] and [LineTerminator] code points below
    U+0100: TAB, LF, VT, FF, CR, SPACE and NO-BREAK SPACE. *)
Definition is_whitespace (c : ascii) : bool :=
  let n := nat_of_ascii c in
  (Nat.leb 9 n && Nat.leb n 13) || Nat.eqb n 32 || Nat.eqb n 160.

(** [s.trimStart()] *)
Fixpoint trimStart (s : string) : string :=
  match s with
  | EmptyString => EmptyString
  | String c rest => if is_whitespace c then trimStart rest else s
  end.

(** [s.trimEnd()]: a whitespace character is dropped when nothing but
    whitespace follows it. *)
Fixpoint trimEnd (s : string) : string :=
  match s with
  | EmptyString => EmptyString
  | String c rest =>
      match trimEnd rest with
      | EmptyString => if is_whitespace c then EmptyString
                       else String c EmptyString
      | kept => String c kept
      end
  end.

(** [s.trim()] *)
Definition trim (s : string) : string := trimEnd (trimStart s).

(** [s.startsWith(p)] *)
Definition startsWith (s p : string) : bool := String.prefix p s.

(** [s.includes(needle)] *)
Fixpoint includes (s needle : string) : bool :=
  String.prefix needle s
  || match s with
     | EmptyString => false
     | String _ rest => includes rest needle
     end.

(** [s.substring(0, n)] *)
Definition substring0 (n : nat) (s : string) : string :=
  String.substring 0 n s.

Definition is_empty (s : string) : bool :=
  match s with EmptyString => true | _ => false end.

End JsString.

(* ================================================================= *)
(** ** Values of type [any] and completions *)

Inductive value : Type :=
| JUndefined
| JNull
| JBool (b : bool)
| JNum (x : float)
| JStr (s : string)
| JArr (items : list value)
| JObj (fields : list (string * value)).  (* each key once, as JSON.parse leaves it *)

(** What a [catch] clause sees of a thrown value: [error.code] and
    [error.message], either of which may be undefined. *)
Record JsError : Type := mkError {
  code : option string;
  message : option string
}.

Inductive completion (A : Type) : Type :=
| Return (a : A)
| Throw (e : JsError).
Arguments Return {A} a.
Arguments Throw {A} e.

Definition bind {A B} (c : completion A) (k : A -> completion B)
  : completion B :=
  match c with
  | Return a => k a
  | Throw e => Throw e
  end.

Notation "x <- c ;; k" := (bind c (fun x => k))
  (at level 61, c at next level, right associativity).

Definition TypeError (msg : string) : JsError :=
  mkError None (Some msg).

Module Js.

(** ToBoolean *)
Definition truthy (v : value) : bool :=
  match v with
  | JUndefined | JNull => false
  | JBool b => b
  | JNum x => negb (PrimFloat.eqb x 0%float || PrimFloat.is_nan x)
  | JStr s => negb (JsString.is_empty s)
  | JArr _ | JObj _ => true
  end.

(** [a || b] *)
Definition or (a b : value) : value := if truthy a then a else b.

Fixpoint lookup (k : string) (fields : list (string * value)) : value :=
  match fields with
  | [] => JUndefined
  | (k', v) :: rest => if String.eqb k k' then v else lookup k rest
  end.

(** [v?.k]: undefined on null and undefined, the own property of an
    object, and undefined on every other value (none of the names read
    by this program is a property of a primitive or of an array). *)
Definition opt (v : value) (k : string) : value :=
  match v with
  | JObj fields => lookup k fields
  | _ => JUndefined
  end.

(** [v.k]: as [v?.k], but reading a property of null or undefined
    throws a TypeError. *)
Definition get (v : value) (k : string) : completion value :=
  match v with
  | JUndefined =>
      Throw (TypeError ("Cannot read properties of undefined (reading '"
                        ++ k ++ "')"))
  | JNull =>
      Throw (TypeError ("Cannot read properties of null (reading '"
                        ++ k ++ "')"))
  | _ => Return (opt v k)
  end.

End Js.

Infix "|||" := Js.or (at level 50, left associativity).
Notation "v ?. k" := (Js.opt v k)
  (at level 2, k at level 0, left associativity, format "v ?. k").

(* ================================================================= *)
(** ** The e-mail filter and the field extractors *)


(** The four places a website is looked for. *)
Definition website_locations (props : value) : list value :=
  [ props?."contact"?."website";
    props?."datasource"?."raw"?."contact"?."website";
    props?."datasource"?."raw"?."contact:website";
    props?."datasource"?."raw"?."website" ].

(** The callback of [companies.filter] in [filterCompaniesWithEmails].
    [company.properties.contact] is a plain property read and throws when
    [company] or [company.properties] is null or undefined; once it has
    succeeded [props] is neither, so the later plain reads
    [props.datasource] cannot throw and agree with [props?.datasource]. *)
Definition hasEmail (company : value) : completion value :=
  props <- Js.get company "properties" ;;
  contact <- Js.get props "contact" ;;
  Return (contact?."email"
          ||| props?."datasource"?."raw"?."contact"?."email"
          ||| props?."datasource"?."raw"?."contact:email").

(** [Array.prototype.filter] with a callback that may throw. *)
Fixpoint filterM (f : value -> completion value) (l : list value)
  : completion (list value) :=
  match l with
  | [] => Return []
  | x :: rest =>
      keep <- f x ;;
      kept <- filterM f rest ;;
      Return (if Js.truthy keep then x :: kept else kept)
  end.

Definition filterCompaniesWithEmails (companies : value)
  : completion (list value) :=
  match companies with
  | JArr items => filterM hasEmail items
  | JUndefined =>
      Throw (TypeError
               "Cannot read properties of undefined (reading 'filter')")
  | JNull =>
      Throw (TypeError "Cannot read properties of null (reading 'filter')")
  | _ => Throw (TypeError "companies.filter is not a function")
  end.

Definition extractEmail (company : value) : completion value :=
  props <- Js.get company "properties" ;;
  contact <- Js.get props "contact" ;;
  Return (contact?."email"
          ||| props?."datasource"?."raw"?."contact"?."email"
          ||| props?."datasource"?."raw"?."contact:email"
          ||| JNull).

Definition extractWebsite (company : value) : completion value :=
  props <- Js.get company "properties" ;;
  contact <- Js.get props "contact" ;;
  Return (contact?."website"
          ||| props?."datasource"?."raw"?."contact"?."website"
          ||| props?."datasource"?."raw"?."contact:website"
          ||| props?."datasource"?."raw"?."website"
          ||| JNull).

(** The first truthy value of a list of candidates, the reading of
    "first match wins" that the theorems compare the [||] chains with. *)
Fixpoint first_truthy (candidates : list value) : option value :=
  match candidates with
  | [] => None
  | v :: rest => if Js.truthy v then Some v else first_truthy rest
  end.

(** A raw place as the provider delivers it: a feature that carries a
    [properties] bag. *)
Definition has_properties (company props : value) : Prop :=
  Js.get company "properties" = Return props
  /\ props <> JUndefined /\ props <> JNull.

(* ================================================================= *)
(** ** Parsed documents and cheerio selections *)

Module Dom.

Inductive node : Type :=
| Text (data : string)
| Comment (data : string)
| Element (name : string) (attribs : list (string * string))
          (children : list node).

(** The children of the root that [cheerio.load] returns. *)
Definition document : Type := list node.

(** [textContent]: the text of every descendant text node, in order. *)
Fixpoint textContent (n : node) : string :=
  match n with
  | Text data => data
  | Comment _ => ""
  | Element _ _ children => String.concat "" (map textContent children)
  end.

(** The element and its descendant elements, in document order. *)
Fixpoint elements_of (n : node) : list node :=
  match n with
  | Element _ _ children => n :: flat_map elements_of children
  | _ => []
  end.

Definition all_elements (doc : document) : list node :=
  flat_map elements_of doc.

Fixpoint attribute (k : string) (attribs : list (string * string))
  : option string :=
  match attribs with
  | [] => None
  | (k', v) :: rest => if String.eqb k k' then Some v else attribute k rest
  end.

(** The whitespace-separated words of an attribute value. *)
Fixpoint words (s : string) : list string :=
  match s with
  | EmptyString => [EmptyString]
  | String c rest =>
      if JsString.is_whitespace c then EmptyString :: words rest
      else match words rest with
           | w :: ws => String c w :: ws
           | [] => [String c EmptyString]
           end
  end.

(** The compound selectors this program uses. *)
Inductive compound : Type :=
| Tag (tag : string)                        (* tag *)
| TagClass (tag cls : string)               (* tag.cls *)
| TagId (tag id : string)                   (* tag#id *)
| TagAttr (tag attr val : string).          (* tag[attr="val"] *)

(** A comma-separated selector list. *)
Definition selector : Type := list compound.

Definition matches_compound (c : compound) (n : node) : bool :=
  match n with
  | Element name attribs _ =>
      match c with
      | Tag tag => String.eqb name tag
      | TagClass tag cls =>
          String.eqb name tag
          && match attribute "class" attribs with
             | Some v => existsb (String.eqb cls) (words v)
             | None => false
             end
      | TagId tag id =>
          String.eqb name tag
          && match attribute "id" attribs with
             | Some v => String.eqb v id
             | None => false
             end
      | TagAttr tag attr val =>
          String.eqb name tag
          && match attribute attr attribs with
             | Some v => String.eqb v val
             | None => false
             end
      end
  | _ => false
  end.

Definition matches (sel : selector) (n : node) : bool :=
  existsb (fun c => matches_compound c n) sel.

(** A cheerio selection: the matched elements in document order. *)
Definition selection : Type := list node.

(** [$(sel)] *)
Definition select (sel : selector) (doc : document) : selection :=
  List.filter (matches sel) (all_elements doc).

(** [.first()] *)
Definition first (s : selection) : selection := firstn 1 s.

(** [.text()] *)
Definition text (s : selection) : string :=
  String.concat "" (map textContent s).

(** [.attr(k)]: the attribute of the first matched element. *)
Definition attr (k : string) (s : selection) : option string :=
  match s with
  | Element _ attribs _ :: _ => attribute k attribs
  | _ => None
  end.

End Dom.

(* ================================================================= *)
(** ** The content heuristics of [scrapeWebsite] *)

(** [$(this).text().trim().length > threshold], the test of each
    [.filter] callback. *)
Definition substantial (threshold : nat) (e : Dom.node) : bool :=
  Nat.ltb threshold (String.length (JsString.trim (Dom.text [e]))).

Definition paragraph_selector : Dom.selector := [Dom.Tag "p"].

Definition meta_selector : Dom.selector :=
  [Dom.TagAttr "meta" "name" "description"].

Definition heading_selector : Dom.selector :=
  [Dom.Tag "h1"; Dom.Tag "h2"; Dom.Tag "h3"].

Definition content_div_selector : Dom.selector :=
  [Dom.TagClass "div" "content"; Dom.TagClass "div" "main";
   Dom.TagClass "div" "about"; Dom.TagId "div" "content";
   Dom.TagId "div" "main"; Dom.TagClass "div" "description";
   Dom.TagClass "div" "company-info"].

Definition div_selector : Dom.selector := [Dom.Tag "div"].

Definition NO_CONTENT : string := "No meaningful content found".

(** [metaDescription && metaDescription.length > 20] *)
Definition meta_qualifies (metaDescription : option string) : bool :=
  match metaDescription with
  | Some m => negb (JsString.is_empty m) && Nat.ltb 20 (String.length m)
  | None => false
  end.

(** Lines 119-156 of route.ts: the five strategies applied to the
    document that [cheerio.load(response.data)] returned. *)
Definition extractContent (doc : Dom.document) : string :=
  let paragraphs :=
    List.filter (substantial 30) (Dom.select paragraph_selector doc) in
  if Nat.ltb 0 (List.length paragraphs) then
    JsString.trim (Dom.text (Dom.first paragraphs))
  else
  let metaDescription := Dom.attr "content" (Dom.select meta_selector doc) in
  if meta_qualifies metaDescription then
    JsString.trim (match metaDescription with Some m => m | None => "" end)
  else
  let headings :=
    List.filter (substantial 10) (Dom.select heading_selector doc) in
  if Nat.ltb 0 (List.length headings) then
    JsString.trim (Dom.text (Dom.first headings))
  else
  let contentDivs :=
    List.filter (substantial 40) (Dom.select content_div_selector doc) in
  if Nat.ltb 0 (List.length contentDivs) then
    JsString.substring0 300
      (JsString.trim (Dom.text (Dom.first contentDivs)))
  else
  let anyDiv :=
    JsString.trim
      (Dom.text (Dom.first
         (List.filter (substantial 40) (Dom.select div_selector doc)))) in
  if JsString.is_empty anyDiv then NO_CONTENT else anyDiv.

(** The trimmed text of the first element matched by [sel] whose trimmed
    text is longer than [threshold], as the specification words each
    strategy. *)
Definition first_substantial (sel : Dom.selector) (threshold : nat)
  (doc : Dom.document) : option string :=
  match List.find (substantial threshold) (Dom.select sel doc) with
  | Some e => Some (JsString.trim (Dom.textContent e))
  | None => None
  end.

(** The document's meta description: the [content] attribute of its
    first [meta[name="description"]] element. *)
Definition meta_description (doc : Dom.document) : option string :=
  Dom.attr "content" (Dom.select meta_selector doc).

(* ================================================================= *)
(** ** [scrapeWebsite]: the retry loop *)

(** What one [axios.get] followed by [cheerio.load] yields: a parsed
    document, or the error that the [catch] clause receives. *)
Inductive fetch_outcome : Type :=
| Fetched (doc : Dom.document)
| Failed (error : JsError).

(** A site answers the attempts of one scrape, numbered from 1. *)
Definition endpoint : Type := nat -> fetch_outcome.

(** The web: the site behind every URL. *)
Definition web : Type := string -> endpoint.

Inductive event : Type :=
| EvGet (url : string) (timeout_ms : nat)      (* axios.get *)
| EvWarn (attempt : nat)                        (* console.warn *)
| EvSleep (ms : nat)                            (* setTimeout *)
| EvError.                                      (* console.error *)

Definition SCRAPE_TIMEOUT_MS : nat := 15000.
Definition maxAttempts : nat := 3.
Definition FAILURE_MARKER : string := "Failed to scrape: ".

(** [url.startsWith('http') ? url : `https://${url}`] *)
Definition formattedUrl (url : string) : string :=
  if JsString.startsWith url "http" then url else "https://" ++ url.

(** [error.code === 'ECONNABORTED' || error.message?.includes('timeout')] *)
Definition isRetryable (error : JsError) : bool :=
  match code error with
  | Some c => String.eqb c "ECONNABORTED"
  | None => false
  end
  || match message error with
     | Some m => JsString.includes m "timeout"
     | None => false
     end.

(** How the [for] loop ends: a [return] inside the [try], or the loop is
    left with [lastError]. *)
Inductive loop_exit : Type :=
| Returned (content : string)
| Left (lastError : option JsError).

(** The [for] loop from [attempt] on; [remaining] counts the iterations
    the loop condition [attempt <= maxAttempts] still admits. *)
Fixpoint scrapeLoop (site : endpoint) (url : string)
  (attempt remaining : nat) (lastError : option JsError)
  : list event * loop_exit :=
  match remaining with
  | 0 => ([], Left lastError)
  | S remaining' =>
      match site attempt with
      | Fetched doc =>
          ([EvGet url SCRAPE_TIMEOUT_MS], Returned (extractContent doc))
      | Failed error =>
          if isRetryable error then
            if Nat.ltb attempt maxAttempts then
              let (trace, exit) :=
                scrapeLoop site url (S attempt) remaining' (Some error) in
              (EvGet url SCRAPE_TIMEOUT_MS :: EvWarn attempt
                 :: EvSleep 1000 :: trace, exit)
            else
              ([EvGet url SCRAPE_TIMEOUT_MS; EvWarn attempt],
               Left (Some error))
          else
            ([EvGet url SCRAPE_TIMEOUT_MS], Left (Some error))
      end
  end.

(** [`${error.message}`] *)
Definition message_text (error : JsError) : string :=
  match message error with
  | Some m => m
  | None => "undefined"
  end.

(** [scrapeWebsite(url)]: the events it causes and the value its promise
    settles with ([None] is [null]). *)
Definition scrapeWebsite (w : web) (url : string)
  : list event * completion (option string) :=
  if JsString.is_empty url then ([], Return None)
  else
    let (trace, exit) :=
      scrapeLoop (w (formattedUrl url)) (formattedUrl url)
                 1 maxAttempts None in
    match exit with
    | Returned content => (trace, Return (Some content))
    | Left (Some lastError) =>
        (trace ++ [EvError],
         Return (Some (FAILURE_MARKER ++ message_text lastError)%string))
    | Left None =>
        (trace ++ [EvError],
         Throw (TypeError "Cannot read properties of null (reading 'message')"))
    end.

Definition is_get (e : event) : bool :=
  match e with EvGet _ _ => true | _ => false end.

(** How many times the site was called. *)
Definition fetch_count (trace : list event) : nat :=
  List.length (List.filter is_get trace).

(** The waits between attempts, in order. *)
Fixpoint sleeps (trace : list event) : list nat :=
  match trace with
  | [] => []
  | EvSleep ms :: rest => ms :: sleeps rest
  | _ :: rest => sleeps rest
  end.

(** The URLs requested, in order. *)
Fixpoint requested (trace : list event) : list string :=
  match trace with
  | [] => []
  | EvGet url _ :: rest => url :: requested rest
  | _ :: rest => requested rest
  end.

(** Errors used in the examples. *)
Definition axios_timeout : JsError :=
  mkError (Some "ECONNABORTED") (Some "timeout of 15000ms exceeded").
Definition http_404 : JsError :=
  mkError (Some "ERR_BAD_REQUEST") (Some "Request failed with status code 404").
Definition connection_reset : JsError :=
  mkError (Some "ECONNRESET") (Some "read ECONNRESET").

(* ================================================================= *)
(** ** [getScrapeStatus] of CompanyTable.tsx *)

Record ScrapeStatus : Type := mkStatus {
  success : bool;
  errorCode : option string
}.

(** [\w] *)
Definition is_word_char (c : ascii) : bool :=
  let n := nat_of_ascii c in
  (Nat.leb 48 n && Nat.leb n 57) || (Nat.leb 65 n && Nat.leb n 90)
  || (Nat.leb 97 n && Nat.leb n 122) || Nat.eqb n 95.

(** The longest run of word characters at the start of [s]. *)
Fixpoint take_word (s : string) : string :=
  match s with
  | EmptyString => EmptyString
  | String c rest =>
      if is_word_char c then String c (take_word rest) else EmptyString
  end.

Fixpoint drop (n : nat) (s : string) : string :=
  match n, s with
  | S n', String _ rest => drop n' rest
  | _, _ => s
  end.

(** [content.match(/ERROR:\s*(\w+)/)]: the first capture group of the
    leftmost match.  After [ERROR:] the greedy [\s*] is followed by a
    word character or the attempt at this position fails. *)
Fixpoint errorMatch (content : string) : option string :=
  let here :=
    if String.prefix "ERROR:" content
    then take_word (JsString.trimStart (drop 6 content))
    else EmptyString in
  if negb (JsString.is_empty here) then Some here
  else match content with
       | EmptyString => None
       | String _ rest => errorMatch rest
       end.

Definition getScrapeStatus (content : option string) : ScrapeStatus :=
  match content with
  | None => mkStatus false (Some "NOT_ATTEMPTED")
  | Some content =>
      if JsString.includes content "ERROR:" then
        mkStatus false
          (Some (match errorMatch content with
                 | Some c => c
                 | None => "UNKNOWN"
                 end))
      else if JsString.is_empty (JsString.trim content) then
        mkStatus false (Some "EMPTY_CONTENT")
      else mkStatus true None
  end.

(* ================================================================= *)
(** ** [fetchNearbyCompanies] *)

(** A template literal: literal text and interpolated values. *)
Inductive piece : Type :=
| Lit (s : string)
| Interp (v : value).

Module Places.

(** The [params] object of the request. *)
Record Params : Type := mkParams {
  categories : string;
  filter : list piece;
  bias : list piece;
  limit : nat;
  apiKey : string
}.

Record Request : Type := mkRequest {
  url : string;
  params : Params
}.

(** [axios.get] resolves with [response.data] or rejects. *)
Inductive Result : Type :=
| Resolved (data : value)
| Rejected (error : JsError).

Definition Provider : Type := Request -> Result.

End Places.

Definition GEOAPIFY_API_KEY : string := "7d07e1bb510e404a851a8ac48b033c88".

(** [try { body } catch (error) { handler }] *)
Definition try_catch {A} (body : completion A)
  (handler : JsError -> completion A) : completion A :=
  match body with
  | Return a => Return a
  | Throw error => handler error
  end.

(** The requests issued and the value the promise settles with.  [lat]
    and [lon] are declared [number]; the handler passes what the request
    body holds. *)
Definition fetchNearbyCompanies (provider : Places.Provider)
  (lat lon : value) (radiusKm : float)
  : list Places.Request * completion value :=
  let radiusMeters := (radiusKm * 1000)%float in
  let request :=
    Places.mkRequest "https://api.geoapify.com/v2/places"
      (Places.mkParams
         "commercial"
         [Lit "circle:"; Interp lon; Lit ","; Interp lat; Lit ",";
          Interp (JNum radiusMeters)]
         [Lit "proximity:"; Interp lon; Lit ","; Interp lat]
         500
         GEOAPIFY_API_KEY) in
  ([request],
   try_catch
     (match provider request with
      | Places.Resolved data => Js.get data "features"
      | Places.Rejected error => Throw error
      end)
     (fun _ => Return (JArr []))).

(* ================================================================= *)
(** ** [Promise.all] *)

(** The promises settle in the order of their finishing times (the
    earlier index first among equals). *)
Fixpoint insert_by_time (finish : nat -> nat) (i : nat) (l : list nat)
  : list nat :=
  match l with
  | [] => [i]
  | j :: rest =>
      if Nat.leb (finish i) (finish j) then i :: l
      else j :: insert_by_time finish i rest
  end.

Definition settle_order (finish : nat -> nat) (n : nat) : list nat :=
  fold_right (insert_by_time finish) [] (seq 0 n).

(** [values[i] = a] on an array of [length] slots. *)
Fixpoint store {A} (i : nat) (a : A) (values : list (option A))
  : list (option A) :=
  match values, i with
  | [], _ => []
  | _ :: rest, 0 => Some a :: rest
  | slot :: rest, S i' => slot :: store i' a rest
  end.

(** Each fulfilled promise stores its value at its own index; the first
    rejection rejects the whole. *)
Fixpoint settle {A} (order : list nat) (promises : list (completion A))
  (values : list (option A)) : completion (list (option A)) :=
  match order with
  | [] => Return values
  | i :: later =>
      match nth_error promises i with
      | Some (Return a) => settle later promises (store i a values)
      | Some (Throw error) => Throw error
      | None => settle later promises values
      end
  end.

Fixpoint filled {A} (values : list (option A)) : list A :=
  match values with
  | [] => []
  | Some a :: rest => a :: filled rest
  | None :: rest => filled rest
  end.

Definition Promise_all {A} (finish : nat -> nat)
  (promises : list (completion A)) : completion (list A) :=
  values <- settle (settle_order finish (List.length promises)) promises
                   (repeat None (List.length promises)) ;;
  Return (filled values).

(* ================================================================= *)
(** ** The POST handler *)

Record CompanyRecord : Type := mkCompany {
  name : value;
  address : value;
  location : value * value;
  website : value;
  email : value;
  scrapedContent : option string
}.

Inductive ResponseBody : Type :=
| ErrorBody (error : string)                      (* { error } *)
| CompaniesBody (companies : list CompanyRecord)  (* { companies } *)
| MessageBody (text : string).                    (* { message } *)

Record Response : Type := mkResponse {
  body : ResponseBody;
  status : nat
}.

(** What surrounds one request. *)
Record Environment : Type := mkEnvironment {
  (** [parseFloat(v.toString())] for [v] neither null nor undefined; it
      throws when [v.toString] is not callable *)
  parseFloat_toString : value -> completion float;
  provider : Places.Provider;
  sites : web;
  (** when the scrape of the i-th retained company finishes *)
  finish : nat -> nat
}.

(** The callback of [companiesWithEmails.map]. *)
Definition processCompany (w : web) (company : value)
  : completion CompanyRecord :=
  website <- extractWebsite company ;;
  email <- extractEmail company ;;
  scrapedContent <-
    (if Js.truthy website then
       match website with
       | JStr url => snd (scrapeWebsite w url)
       | _ => Throw (TypeError "url.startsWith is not a function")
       end
     else Return None) ;;
  props <- Js.get company "properties" ;;
  Return (mkCompany props?."name" props?."formatted"
                    (props?."lat", props?."lon")
                    website email scrapedContent).

Definition POST (env : Environment) (request_json : completion value)
  : Response :=
  match
    (json <- request_json ;;
     latitude <- Js.get json "latitude" ;;
     longitude <- Js.get json "longitude" ;;
     given <- Js.get json "radius" ;;
     let radius :=
       match given with JUndefined => JNum 2.5%float | _ => given end in
     if negb (Js.truthy latitude) || negb (Js.truthy longitude) then
       Return (mkResponse
                 (ErrorBody "Latitude and longitude are required") 400)
     else
       radiusKm <-
         match radius with
         | JNull =>
             Throw (TypeError
                      "Cannot read properties of null (reading 'toString')")
         | _ => parseFloat_toString env radius
         end ;;
       companies <-
         snd (fetchNearbyCompanies (provider env)
                                   latitude longitude radiusKm) ;;
       companiesWithEmails <- filterCompaniesWithEmails companies ;;
       processedCompanies <-
         Promise_all (finish env)
                     (map (processCompany (sites env)) companiesWithEmails) ;;
       Return (mkResponse (CompaniesBody processedCompanies) 200))
  with
  | Return response => response
  | Throw _ => mkResponse (ErrorBody "Failed to process request") 500
  end.

Definition GET : Response :=
  mkResponse
    (MessageBody
       "Use POST method with latitude and longitude to search for companies")
    200.

(** A request body that carries both coordinates as numbers. *)
Definition search_body (latitude longitude : float) : value :=
  JObj [("latitude", JNum latitude); ("longitude", JNum longitude)].

(** An environment for the examples: the provider is down and no site
    answers. *)
Definition offline : Environment :=
  mkEnvironment
    (fun v => Return (match v with JNum x => x | _ => PrimFloat.nan end))
    (fun _ => Places.Rejected (mkError (Some "ENOTFOUND") None))
    (fun _ _ => Failed axios_timeout)
    (fun i => i).

(** Whether the filter keeps a place: its callback returns a truthy
    value. *)
Definition retained (company : value) : bool :=
  match hasEmail company with
  | Return keep => Js.truthy keep
  | Throw _ => false
  end.

(** The slots of [Promise.all] filled so far hold the values of their
    own promises. *)
Definition agrees {A} (l : list A) (values : list (option A)) : Prop :=
  forall i a, nth_error values i = Some (Some a) -> nth_error l i = Some a.

(* ================================================================= *)
(** ** Sample data *)

(** A place that publishes an e-mail address and two websites. *)
Definition acme_properties : value :=
  JObj [("name", JStr "Acme");
        ("formatted", JStr "1 Main Street");
        ("contact", JObj [("email", JStr "hello@acme.example");
                          ("website", JStr "acme.example")]);
        ("datasource",
         JObj [("raw", JObj [("contact:email", JStr "old@acme.example");
                             ("website", JStr "old.acme.example")])])].

Definition acme : value := JObj [("properties", acme_properties)].

(** A place with no contact details. *)
Definition kiosk : value :=
  JObj [("properties", JObj [("name", JStr "Kiosk")])].

(** A place with an e-mail address and no website. *)
Definition bakery : value :=
  JObj [("properties",
         JObj [("name", JStr "Bakery");
               ("datasource",
                JObj [("raw", JObj [("contact:email",
                                     JStr "bread@bakery.example")])])])].

(** The page served at [https://acme.example]. *)
Definition acme_page : Dom.document :=
  [Dom.Element "html" []
     [Dom.Element "head" []
        [Dom.Element "meta"
           [("name", "description");
            ("content", "Acme makes everything you need.")] []];
      Dom.Element "body" []
        [Dom.Element "h1" [] [Dom.Text "Acme Corporation"];
         Dom.Element "p" [] [Dom.Text " We build anvils and rockets since 1949. "]]]].

(** A provider that knows three places, a web where only Acme's site
    answers, and scrapes that finish in the reverse of their order. *)
Definition demo : Environment :=
  mkEnvironment
    (fun v => Return (match v with JNum x => x | _ => PrimFloat.nan end))
    (fun _ => Places.Resolved
                (JObj [("type", JStr "FeatureCollection");
                       ("features", JArr [acme; kiosk; bakery])]))
    (fun url _ => if String.eqb url "https://acme.example"
                  then Fetched acme_page else Failed http_404)
    (fun i => 5 - i).

Definition demo_request : completion value :=
  Return (JObj [("latitude", JNum 52.52%float);
                ("longitude", JNum 13.405%float);
                ("radius", JNum 2%float)]).

Definition demo_records : list CompanyRecord :=
  [ mkCompany (JStr "Acme") (JStr "1 Main Street") (JUndefined, JUndefined)
              (JStr "acme.example") (JStr "hello@acme.example")
              (Some "We build anvils and rockets since 1949.");
    mkCompany (JStr "Bakery") JUndefined (JUndefined, JUndefined)
              JNull (JStr "bread@bakery.example") None ].

(** A page whose only usable text is a 25-character meta description. *)
Definition meta_only_page : Dom.document :=
  [Dom.Element "html" []
     [Dom.Element "head" []
        [Dom.Element "meta"
           [("name", "description");
            ("content", "Fresh bread every morning")] []];
      Dom.Element "body" []
        [Dom.Element "p" [] [Dom.Text "Hello"];
         Dom.Element "h1" [] [Dom.Text "Bakery"]]]].

(** A page with no paragraph, description or heading, and a recognised
    content div of 50 characters. *)
Definition content_div_page : Dom.document :=
  [Dom.Element "html" []
     [Dom.Element "body" []
        [Dom.Element "div" [("class", "nav")] [Dom.Text "Home"];
         Dom.Element "div" [("class", "wide content")]
           [Dom.Text "Fifty characters of text about what the shop sells"]]]].

(** A page whose meta description is 21 blanks. *)
Definition blank_meta_page : Dom.document :=
  [Dom.Element "html" []
     [Dom.Element "head" []
        [Dom.Element "meta"
           [("name", "description");
            ("content", "                     ")] []];
      Dom.Element "body" [] []]].

(** A web where every site gives the same answer to every attempt. *)
Definition always (outcome : fetch_outcome) : web := fun _ _ => outcome.

Definition REQUIRED : Response :=
  mkResponse (ErrorBody "Latitude and longitude are required") 400.

(* ================================================================= *)
(** ** [truncateUrl] of CompanyTable.tsx *)

(** [url.replace(/^(https?:\/\/)?(www\.)?/, '')]: both groups are
    optional and greedy, so the protocol is dropped when the URL starts
    with it, and then a leading [www.] of what is left. *)
Definition stripProtocolAndWww (url : string) : string :=
  let rest :=
    if String.prefix "https://" url then drop 8 url
    else if String.prefix "http://" url then drop 7 url
    else url in
  if String.prefix "www." rest then drop 4 rest else rest.

Definition truncateUrl (url : option string) : string :=
  match url with
  | None => "-"
  | Some url =>
      if JsString.is_empty url then "-"
      else
        let displayUrl := stripProtocolAndWww url in
        if Nat.ltb 25 (String.length displayUrl)
        then (JsString.substring0 22 displayUrl ++ "...")%string
        else displayUrl
  end.

(** All characters of a string satisfy a test. *)
Fixpoint all_chars (test : ascii -> bool) (s : string) : bool :=
  match s with
  | EmptyString => true
  | String c rest => test c && all_chars test rest
  end.

(* ================================================================= *)
(** ** [searchCompanies] of page.tsx *)

Module Home.

(** The state of the page. *)
Record State : Type := mkState {
  companies : list CompanyRecord;
  loading : bool;
  error : option string
}.

(** [JSON.stringify] of a number, read back by [request.json()]: NaN and
    the infinities become null, and the sign of zero is lost. *)
Definition json_number (x : float) : value :=
  if PrimFloat.is_nan x || PrimFloat.is_infinity x then JNull
  else if PrimFloat.eqb x 0%float then JNum 0%float
  else JNum x.

(** The body of the request, as the handler parses it. *)
Definition requestParams (latitude longitude radius : float) : value :=
  JObj [("latitude", json_number latitude);
        ("longitude", json_number longitude);
        ("radius", json_number radius)].

(** [response.ok] *)
Definition ok (response : Response) : bool :=
  Nat.leb 200 (status response) && Nat.leb (status response) 299.

(** [`${response.status}`] *)
Definition status_text (response : Response) : string :=
  NilZero.string_of_uint (Nat.to_uint (status response)).

(** [data.companies || []] *)
Definition companiesFound (response : Response) : list CompanyRecord :=
  match body response with
  | CompaniesBody found => found
  | _ => []
  end.

(** [err?.message || 'Unknown error'] *)
Definition error_text (err : JsError) : string :=
  match message err with
  | Some m => if JsString.is_empty m then "Unknown error" else m
  | None => "Unknown error"
  end.

(** [searchCompanies(latitude, longitude, radius)]: the state once the
    promise has settled.  [fetch] posts a body to [/api/companies]. *)
Definition searchCompanies (fetch : value -> completion Response)
  (st : State) (latitude longitude radius : float) : State :=
  let outcome :=
    response <- fetch (requestParams latitude longitude radius) ;;
    if negb (ok response) then
      Throw (mkError None
               (Some ("HTTP error! status: " ++ status_text response)%string))
    else Return (companiesFound response) in
  match outcome with
  | Return found => mkState found false None
  | Throw err =>
      mkState (companies st) false
              (Some ("Error searching companies: " ++ error_text err)%string)
  end.

(** The route served by an environment. *)
Definition route (env : Environment) (json : value) : completion Response :=
  Return (POST env (Return json)).

End Home.

(* ================================================================= *)
(** ** Requests that pass the handler's check *)

Definition FAILED : Response :=
  mkResponse (ErrorBody "Failed to process request") 500.





(** The record of [demo_records] made from [acme]. *)
Definition acme_record : CompanyRecord :=
  mkCompany (JStr "Acme") (JStr "1 Main Street") (JUndefined, JUndefined)
            (JStr "acme.example") (JStr "hello@acme.example")
            (Some "We build anvils and rockets since 1949.").

(** A site that times out once and then serves Acme's page. *)
Definition slow_start : web :=
  fun _ attempt =>
    match attempt with
    | 1 => Failed axios_timeout
    | _ => Fetched acme_page
    end.

(** A page of a single recognised content div with [n] characters. *)
Definition long_div_page : Dom.document :=
  [Dom.Element "div" [("id", "main")]
     [Dom.Text "Fifty characters of text about what the shop sells";
      Dom.Element "span" [] [Dom.Text " and a little more than that"]]].

(** The conditions under which a place makes the extractors throw. *)
Definition no_properties (company : value) : Prop :=
  company = JUndefined \/ company = JNull
  \/ company?."properties" = JUndefined
  \/ company?."properties" = JNull.

(** A page that shows one company from an earlier search. *)
Definition showing_acme : Home.State :=
  Home.mkState [acme_record] true None.

(** A coordinate that the handler treats as missing once it has gone
    through [JSON.stringify]: NaN, an infinity or zero. *)
Definition unsendable (x : float) : bool :=
  PrimFloat.is_nan x || PrimFloat.is_infinity x || PrimFloat.eqb x 0%float.

(* ================================================================= *)
(** ** Pages for the strategy order *)

(** A page with two description elements, the first one short. *)
Definition two_descriptions_page : Dom.document :=
  [Dom.Element "html" []
     [Dom.Element "head" []
        [Dom.Element "meta"
           [("name", "description"); ("content", "Home")] [];
         Dom.Element "meta"
           [("name", "description");
            ("content", "Acme makes everything you need.")] []];
      Dom.Element "body" []
        [Dom.Element "h1" [] [Dom.Text "Acme Corporation"]]]].

(** A page with a short paragraph, a short description, a heading and a
    recognised content div. *)
Definition heading_page : Dom.document :=
  [Dom.Element "html" []
     [Dom.Element "head" []
        [Dom.Element "meta"
           [("name", "description"); ("content", "Short text")] []];
      Dom.Element "body" []
        [Dom.Element "p" [] [Dom.Text "Hi"];
         Dom.Element "h1" [] [Dom.Text "Shop"];
         Dom.Element "h3" [] [Dom.Text "Welcome to our shop"];
         Dom.Element "div" [("class", "content")]
           [Dom.Text "Fifty characters of text about what the shop sells"]]]].

(** A page whose only long text is in a div of no recognised class. *)
Definition any_div_page : Dom.document :=
  [Dom.Element "html" []
     [Dom.Element "body" []
        [Dom.Element "span" []
           [Dom.Text "Forty-five characters in a span do not count."];
         Dom.Element "div" [("class", "wrapper")]
           [Dom.Text "Fifty characters of text about what the shop sells"]]]].

(** A page with nothing long enough. *)
Definition bare_page : Dom.document :=
  [Dom.Element "html" []
     [Dom.Element "body" []
        [Dom.Element "div" [("id", "main")] [Dom.Text "Under construction"]]]].

(** The meta clause of the claim as it is worded: any description
    element of the document whose content exceeds 20 characters wins
    when no paragraph qualifies. *)
Definition meta_wins_as_specified : Prop :=
  forall (doc : Dom.document) (name : string)
         (attribs : list (string * string)) (children : list Dom.node)
         (m : string),
    first_substantial [Dom.Tag "p"] 30 doc = None ->
    In (Dom.Element name attribs children)
       (Dom.select [Dom.TagAttr "meta" "name" "description"] doc) ->
    Dom.attribute "content" attribs = Some m ->
    20 < String.length m ->
    extractContent doc = JsString.trim m.

(* ================================================================= *)
(** * Verified properties *)

(* ================================================================= *)
(** ** The [||] chains *)

Section Chains.

Lemma or_truthy_l (a b : value) : Js.truthy a = true -> a ||| b = a.
Proof. unfold Js.or; now intros ->. Qed.

Lemma or_falsy_l (a b : value) : Js.truthy a = false -> a ||| b = b.
Proof. unfold Js.or; now intros ->. Qed.


Lemma truthy_not_undefined (v : value) :
  Js.truthy v = true -> v <> JUndefined.
Proof. now intros H ->. Qed.

(** A chain [a || b || ... || null] is the first truthy candidate, or
    null. *)
Lemma chain_null (candidates : list value) :
  fold_left Js.or (candidates ++ [JNull]) JUndefined
  = match first_truthy candidates with
    | Some v => v
    | None => JNull
    end.
Proof.
  induction candidates as [|v rest IH]; [reflexivity|].
  cbn [app fold_left first_truthy].
  destruct (Js.truthy v) eqn:Hv.
  - clear IH. unfold Js.or at 2. cbn [Js.truthy].
    generalize (rest ++ [JNull]).
    intros l; induction l as [|x l IHl]; [reflexivity|].
    cbn [fold_left]. now rewrite (or_truthy_l v x Hv).
  - unfold Js.or at 2. cbn [Js.truthy].
    destruct rest as [|v' rest'].
    + cbn. now rewrite (or_falsy_l v JNull Hv).
    + cbn [app fold_left first_truthy] in *.
      rewrite (or_falsy_l v v' Hv).
      unfold Js.or at 2 in IH. cbn [Js.truthy] in IH. exact IH.
Qed.


Lemma first_truthy_none (candidates : list value) :
  first_truthy candidates = None <->
  forall v, In v candidates -> Js.truthy v = false.
Proof.
  induction candidates as [|x rest IH]; cbn.
  - split; [intros _ v []|reflexivity].
  - destruct (Js.truthy x) eqn:Hx; split.
    + discriminate.
    + intros H. specialize (H x (or_introl eq_refl)). congruence.
    + intros H v [<-|Hin]; [exact Hx|]. now apply IH.
    + intros H. apply IH. intros v Hin. apply H. now right.
Qed.

(** The first truthy candidate is the one at the least index that
    holds a truthy value. *)
Lemma first_truthy_at (candidates : list value) (i : nat) (v : value) :
  nth_error candidates i = Some v ->
  Js.truthy v = true ->
  (forall j u, j < i -> nth_error candidates j = Some u ->
               Js.truthy u = false) ->
  first_truthy candidates = Some v.
Proof.
  revert i. induction candidates as [|x rest IH]; intros i Hi Hv Hlow.
  - now destruct i.
  - destruct i as [|i]; cbn in *.
    + injection Hi as ->. now rewrite Hv.
    + rewrite (Hlow 0 x); [|lia|reflexivity].
      apply (IH i); auto.
      intros j u Hj Hu. apply (Hlow (S j) u); [lia|exact Hu].
Qed.

Lemma get_contact (company props : value) :
  has_properties company props ->
  Js.get props "contact" = Return props?."contact".
Proof.
  intros (_ & Hu & Hn). destruct props; try reflexivity; congruence.
Qed.

Lemma extractWebsite_chain (company props : value) :
  has_properties company props ->
  extractWebsite company
  = Return (match first_truthy (website_locations props) with
            | Some w => w
            | None => JNull
            end).
Proof.
  intros Hp. unfold extractWebsite.
  destruct Hp as (Hget & Hu & Hn). rewrite Hget. cbn [bind].
  rewrite (get_contact company props) by (repeat split; assumption).
  cbn [bind]. f_equal.
  rewrite <- chain_null. unfold website_locations. cbn [app fold_left].
  unfold Js.or at 5. reflexivity.
Qed.



End Chains.

(* ================================================================= *)
(** ** Website extraction *)

(** C7: [extractWebsite] looks at exactly four locations, in the order
    structured contact website, raw-datasource contact website,
    raw-datasource flattened ['contact:website'] key, raw-datasource
    plain website; it returns the first non-empty (truthy) one, so a
    value at a higher-priority location wins over any value below it,
    and it returns null when no location holds one. *)
Theorem extractWebsite_priority (company props : value) :
  has_properties company props ->
  let locations := website_locations props in
  locations = [ props?."contact"?."website";
                props?."datasource"?."raw"?."contact"?."website";
                props?."datasource"?."raw"?."contact:website";
                props?."datasource"?."raw"?."website" ]
  /\ extractWebsite company
     = Return (match first_truthy locations with
               | Some w => w
               | None => JNull
               end)
  /\ (forall i w,
        nth_error locations i = Some w ->
        Js.truthy w = true ->
        (forall j u, j < i -> nth_error locations j = Some u ->
                     Js.truthy u = false) ->
        extractWebsite company = Return w)
  /\ ((forall v, In v locations -> Js.truthy v = false) ->
      extractWebsite company = Return JNull).
Proof.
  intros Hp locations.
  pose proof (extractWebsite_chain company props Hp) as Hchain.
  fold locations in Hchain.
  split; [reflexivity|]. split; [exact Hchain|]. split.
  - intros i w Hi Hw Hlow.
    now rewrite Hchain, (first_truthy_at locations i w Hi Hw Hlow).
  - intros Hnone. apply first_truthy_none in Hnone.
    now rewrite Hchain, Hnone.
Qed.

Lemma extractWebsite_priority_witness :
  has_properties acme acme_properties
  /\ extractWebsite acme = Return (JStr "acme.example").
Proof.
  assert (Hp : has_properties acme acme_properties)
    by (repeat split; discriminate).
  split; [exact Hp|].
  destruct (extractWebsite_priority acme acme_properties Hp)
    as (_ & _ & Hwins & _).
  apply (Hwins 0); [reflexivity|reflexivity|].
  intros j u Hj. inversion Hj.
Defined.

(* ================================================================= *)
(** ** [Promise.all] joins by position *)

Section PromiseAll.

Context {A : Type}.

Lemma insert_by_time_perm (finish : nat -> nat) (i : nat) (l : list nat) :
  Permutation (insert_by_time finish i l) (i :: l).
Proof.
  induction l as [|j rest IH]; cbn; [reflexivity|].
  destruct (Nat.leb (finish i) (finish j)); [reflexivity|].
  rewrite IH. apply perm_swap.
Qed.

Lemma settle_order_perm (finish : nat -> nat) (n : nat) :
  Permutation (settle_order finish n) (seq 0 n).
Proof.
  unfold settle_order. induction (seq 0 n) as [|i rest IH]; cbn.
  - reflexivity.
  - rewrite insert_by_time_perm. now constructor.
Qed.

(** Every promise settles. *)
Lemma settle_order_complete (finish : nat -> nat) (n i : nat) :
  In i (settle_order finish n) <-> i < n.
Proof.
  split; intros H.
  - apply (Permutation_in _ (settle_order_perm finish n)) in H.
    apply in_seq in H. lia.
  - apply (Permutation_in _ (Permutation_sym (settle_order_perm finish n))).
    apply in_seq. lia.
Qed.

Lemma store_length (i : nat) (a : A) (values : list (option A)) :
  List.length (store i a values) = List.length values.
Proof.
  revert i; induction values as [|s rest IH]; intros [|i]; cbn; auto.
Qed.

Lemma store_same (i : nat) (a : A) (values : list (option A)) :
  i < List.length values -> nth_error (store i a values) i = Some (Some a).
Proof.
  revert i; induction values as [|s rest IH]; intros [|i]; cbn; intros H;
    try lia; [reflexivity|]. apply IH. lia.
Qed.

Lemma store_other (i j : nat) (a : A) (values : list (option A)) :
  i <> j -> nth_error (store i a values) j = nth_error values j.
Proof.
  revert i j; induction values as [|s rest IH]; intros [|i] [|j] H; cbn;
    auto; try congruence.
Qed.

Lemma settle_fulfilled (l : list A) (order : list nat) :
  forall values,
    List.length values = List.length l ->
    agrees l values ->
    exists values',
      settle order (map Return l) values = Return values'
      /\ List.length values' = List.length l
      /\ agrees l values'
      /\ (forall i, i < List.length l -> In i order ->
                    exists a, nth_error values' i = Some (Some a)).
Proof.
  induction order as [|i later IH]; intros values Hlen Hag; cbn.
  - exists values. repeat split; auto. intros i _ [].
  - rewrite nth_error_map.
    destruct (nth_error l i) as [a|] eqn:Hi; cbn.
    + assert (Hlt : i < List.length l)
        by (apply nth_error_Some; congruence).
      destruct (IH (store i a values)) as (values' & Hs & Hl & Ha & Hf).
      * now rewrite store_length.
      * intros j b Hj. destruct (Nat.eq_dec i j) as [<-|Hne].
        -- rewrite store_same in Hj by lia. congruence.
        -- rewrite store_other in Hj by assumption. now apply Hag.
      * exists values'. repeat split; auto.
        intros j Hj [<-|Hin]; [|now apply Hf].
        (* the slot written now is never emptied later *)
        clear - Hs Hlt Hlen.
        assert (Hkeep : forall order vs vs',
                   settle order (map Return l) vs = Return vs' ->
                   (exists b, nth_error vs i = Some (Some b)) ->
                   exists b, nth_error vs' i = Some (Some b)).
        { clear. induction order as [|k later IH]; intros vs vs' Hs Hb; cbn in Hs.
          - injection Hs as <-. exact Hb.
          - rewrite nth_error_map in Hs.
            destruct (nth_error l k) as [c|]; cbn in Hs.
            + apply (IH _ _ Hs). destruct Hb as [b Hb].
              destruct (Nat.eq_dec k i) as [->|Hne].
              * exists c. apply store_same.
                apply nth_error_Some. congruence.
              * exists b. now rewrite store_other.
            + now apply (IH _ _ Hs). }
        apply (Hkeep later _ _ Hs). exists a. apply store_same. lia.
    + destruct (IH values Hlen Hag) as (values' & Hs & Hl & Ha & Hf).
      exists values'. repeat split; auto.
      intros j Hj [<-|Hin]; [|now apply Hf].
      apply nth_error_None in Hi. lia.
Qed.

Lemma filled_map_Some (l : list A) : filled (map Some l) = l.
Proof. induction l; cbn; congruence. Qed.

Lemma complete_agrees (l : list A) (values : list (option A)) :
  List.length values = List.length l ->
  agrees l values ->
  (forall i, i < List.length l ->
             exists a, nth_error values i = Some (Some a)) ->
  values = map Some l.
Proof.
  intros Hlen Hag Hall. apply nth_error_ext. intros i.
  rewrite nth_error_map.
  destruct (Nat.lt_ge_cases i (List.length l)) as [Hlt|Hge].
  - destruct (Hall i Hlt) as [a Ha]. rewrite Ha, (Hag i a Ha). reflexivity.
  - assert (Hnone : nth_error l i = None) by now apply nth_error_None.
    rewrite Hnone. apply nth_error_None. lia.
Qed.

(** When every promise is fulfilled, [Promise.all] resolves with their
    values in the order of the promises, whenever each finished. *)
Lemma Promise_all_fulfilled (finish : nat -> nat) (l : list A) :
  Promise_all finish (map Return l) = Return l.
Proof.
  unfold Promise_all. rewrite length_map.
  destruct (settle_fulfilled l (settle_order finish (List.length l))
                             (repeat None (List.length l)))
    as (values & Hs & Hlen & Hag & Hfill).
  - apply repeat_length.
  - intros i a Hi. apply nth_error_In, repeat_spec in Hi. discriminate.
  - rewrite Hs. cbn. f_equal.
    rewrite (complete_agrees l values Hlen Hag).
    + apply filled_map_Some.
    + intros i Hi. apply Hfill; [exact Hi|].
      now apply settle_order_complete.
Qed.

Lemma settle_rejected (promises : list (completion A)) (i : nat)
      (e : JsError) (order : list nat) :
  nth_error promises i = Some (Throw e) ->
  In i order ->
  forall values, exists e', settle order promises values = Throw e'.
Proof.
  intros Hi. induction order as [|j later IH]; intros Hin values; [easy|].
  cbn. destruct (Nat.eq_dec j i) as [->|Hne].
  - rewrite Hi. now exists e.
  - destruct Hin as [Heq|Hin]; [congruence|].
    destruct (nth_error promises j) as [[a|e']|]; eauto.
Qed.

Lemma all_fulfilled_or_rejected (promises : list (completion A)) :
  (exists l, promises = map Return l)
  \/ (exists i e, nth_error promises i = Some (Throw e)).
Proof.
  induction promises as [|[a|e] rest [[l ->]|(i & e' & Hi)]].
  - left. now exists [].
  - left. now exists (a :: l).
  - right. now exists (S i), e'.
  - right. now exists 0, e.
  - right. now exists 0, e.
Qed.

(** [Promise.all] resolves exactly when every promise is fulfilled,
    and then with the values at the positions of their promises. *)
Lemma Promise_all_resolves (finish : nat -> nat)
      (promises : list (completion A)) (l : list A) :
  Promise_all finish promises = Return l <-> promises = map Return l.
Proof.
  split.
  - intros H.
    destruct (all_fulfilled_or_rejected promises)
      as [[l' ->]|(i & e & Hi)].
    + rewrite Promise_all_fulfilled in H. congruence.
    + exfalso. unfold Promise_all in H.
      destruct (settle_rejected promises i e
                  (settle_order finish (List.length promises)) Hi)
        with (values := repeat (@None A) (List.length promises))
        as [e' He'].
      * apply settle_order_complete, nth_error_Some. congruence.
      * rewrite He' in H. discriminate.
  - intros ->. apply Promise_all_fulfilled.
Qed.

End PromiseAll.

(* ================================================================= *)
(** ** The filter and the handler's pipeline *)

Section Pipeline.

Lemma filterM_hasEmail (items kept : list value) :
  filterM hasEmail items = Return kept ->
  kept = List.filter retained items.
Proof.
  revert kept. induction items as [|c rest IH]; intros kept H; cbn in H.
  - now injection H as <-.
  - assert (Hr : retained c = match hasEmail c with
                                | Return keep => Js.truthy keep
                                | Throw _ => false
                                end) by reflexivity.
    cbn [List.filter]. rewrite Hr. clear Hr.
    destruct (hasEmail c) as [keep|e]; cbn [bind] in H; [|discriminate].
    destruct (filterM hasEmail rest) as [kept'|e]; cbn [bind] in H;
      [|discriminate].
    injection H as <-. rewrite (IH kept' eq_refl).
    now destruct (Js.truthy keep).
Qed.

(** The mapper evaluates the filter's chain and appends [|| null]. *)
Lemma extractEmail_hasEmail (company : value) :
  extractEmail company
  = (keep <- hasEmail company ;; Return (keep ||| JNull)).
Proof.
  unfold extractEmail, hasEmail.
  destruct (Js.get company "properties") as [props|e]; cbn [bind];
    [|reflexivity].
  destruct (Js.get props "contact") as [contact|e]; reflexivity.
Qed.



Lemma map_Return_Forall2 {A B} (f : A -> completion B) (l : list A)
      (rs : list B) :
  map f l = map Return rs <-> Forall2 (fun a r => f a = Return r) l rs.
Proof.
  revert rs. induction l as [|a l IH]; intros [|r rs]; cbn; split; intros H;
    try discriminate; try (now inversion H); try (now constructor).
  - injection H as Ha Hl. constructor; [exact Ha|now apply IH].
  - inversion H; subst. f_equal; [assumption|]. now apply IH.
Qed.

(** What a 200 response records about the run that produced it. *)
Lemma POST_ok (env : Environment) (request_json : completion value)
      (records : list CompanyRecord) :
  POST env request_json = mkResponse (CompaniesBody records) 200 ->
  exists latitude longitude radiusKm places,
    snd (fetchNearbyCompanies (provider env) latitude longitude radiusKm)
    = Return (JArr places)
    /\ map (processCompany (sites env)) (List.filter retained places)
       = map Return records.
Proof.
  unfold POST. intros H.
  destruct request_json as [json|e]; cbn [bind] in H; [|discriminate].
  destruct (Js.get json "latitude") as [latitude|e]; cbn [bind] in H;
    [|discriminate].
  destruct (Js.get json "longitude") as [longitude|e]; cbn [bind] in H;
    [|discriminate].
  destruct (Js.get json "radius") as [given|e]; cbn [bind] in H;
    [|discriminate].
  destruct (negb (Js.truthy latitude) || negb (Js.truthy longitude));
    [discriminate|].
  match type of H with
  | context [bind ?c _] =>
      destruct c as [radiusKm|e]; cbn [bind] in H; [|discriminate]
  end.
  destruct (snd (fetchNearbyCompanies (provider env) latitude longitude
                                      radiusKm))
    as [companies|e] eqn:Hfetch; cbn [bind] in H; [|discriminate].
  destruct (filterCompaniesWithEmails companies) as [kept|e] eqn:Hfilter;
    cbn [bind] in H; [|discriminate].
  destruct (Promise_all (finish env) (map (processCompany (sites env)) kept))
    as [processed|e] eqn:Hall; cbn [bind] in H; [|discriminate].
  injection H as <-.
  destruct companies as [| | | | |places|]; try discriminate.
  cbn in Hfilter. apply filterM_hasEmail in Hfilter. subst kept.
  apply Promise_all_resolves in Hall.
  now exists latitude, longitude, radiusKm, places.
Qed.

(** When the scrapes finish has no influence on the response. *)
Lemma POST_finish_irrelevant (env : Environment) (finish' : nat -> nat)
      (request_json : completion value) :
  POST (mkEnvironment (parseFloat_toString env) (provider env) (sites env)
                      finish')
       request_json
  = POST env request_json.
Proof.
  unfold POST. cbn [parseFloat_toString provider sites finish].
  destruct request_json as [json|e]; cbn [bind]; [|reflexivity].
  destruct (Js.get json "latitude") as [latitude|e]; cbn [bind];
    [|reflexivity].
  destruct (Js.get json "longitude") as [longitude|e]; cbn [bind];
    [|reflexivity].
  destruct (Js.get json "radius") as [given|e]; cbn [bind]; [|reflexivity].
  destruct (negb (Js.truthy latitude) || negb (Js.truthy longitude));
    [reflexivity|].
  match goal with
  | |- context [bind ?c _] => destruct c as [radiusKm|e]; cbn [bind];
                              [|reflexivity]
  end.
  destruct (snd (fetchNearbyCompanies (provider env) latitude longitude
                                      radiusKm))
    as [companies|e]; cbn [bind]; [|reflexivity].
  destruct (filterCompaniesWithEmails companies) as [kept|e]; cbn [bind];
    [|reflexivity].
  set (promises := map (processCompany (sites env)) kept).
  destruct (all_fulfilled_or_rejected promises) as [[l Hl]|(i & e & Hi)].
  - rewrite Hl, !Promise_all_fulfilled. reflexivity.
  - assert (Hrej : forall f, exists e', Promise_all f promises = Throw e').
    { intros f. unfold Promise_all.
      destruct (settle_rejected promises i e
                  (settle_order f (List.length promises)) Hi)
        with (values := repeat (@None CompanyRecord) (List.length promises))
        as [e' He'].
      - apply settle_order_complete, nth_error_Some. congruence.
      - exists e'. now rewrite He'. }
    destruct (Hrej finish') as [e1 ->]. destruct (Hrej (finish env)) as [e2 ->].
    reflexivity.
Qed.

End Pipeline.

Example POST_demo :
  POST demo demo_request = mkResponse (CompaniesBody demo_records) 200.
Proof. vm_compute. reflexivity. Qed.



(** Filtering keeps the kept elements at increasing positions of the
    list it filters. *)
Lemma filter_positions {A} (f : A -> bool) (l : list A) :
  exists positions,
    StronglySorted lt positions
    /\ Forall2 (fun p x => nth_error l p = Some x) positions (List.filter f l).
Proof.
  induction l as [|x rest (positions & Hsorted & Hat)]; cbn.
  - exists []. split; constructor.
  - assert (Hs : StronglySorted lt (map S positions)).
    { clear Hat. induction Hsorted as [|p ps Hps IH Hall]; cbn;
        constructor; auto.
      rewrite Forall_map. revert Hall. apply Forall_impl. lia. }
    assert (Hn : Forall2 (fun p y => nth_error (x :: rest) p = Some y)
                         (map S positions) (List.filter f rest)).
    { clear Hsorted Hs. induction Hat; cbn; constructor; auto. }
    destruct (f x).
    + exists (0 :: map S positions). split.
      * constructor; [exact Hs|]. rewrite Forall_map.
        apply Forall_forall. lia.
      * constructor; [reflexivity|exact Hn].
    + now exists (map S positions).
Qed.

(** C10: the records of a 200 response are the retained places of the
    provider's sequence, one record per retained place and in the
    provider's order: filtering keeps places at increasing positions,
    and [Promise.all] puts every record at the index of its place,
    whenever the scrapes finish. *)
Theorem POST_preserves_provider_order (env : Environment)
        (request_json : completion value) (records : list CompanyRecord) :
  POST env request_json = mkResponse (CompaniesBody records) 200 ->
  exists latitude longitude radiusKm places positions,
    snd (fetchNearbyCompanies (provider env) latitude longitude radiusKm)
    = Return (JArr places)
    /\ Forall2 (fun place record =>
                  processCompany (sites env) place = Return record)
               (List.filter retained places) records
    /\ StronglySorted lt positions
    /\ Forall2 (fun p record =>
                  exists place,
                    nth_error places p = Some place
                    /\ retained place = true
                    /\ processCompany (sites env) place = Return record)
               positions records
    /\ (forall finish',
           POST (mkEnvironment (parseFloat_toString env) (provider env)
                               (sites env) finish')
                request_json
           = mkResponse (CompaniesBody records) 200).
Proof.
  intros Hok.
  destruct (POST_ok env request_json records Hok)
    as (latitude & longitude & radiusKm & places & Hfetch & Hmap).
  apply map_Return_Forall2 in Hmap.
  destruct (filter_positions retained places) as (positions & Hsorted & Hat).
  exists latitude, longitude, radiusKm, places, positions.
  repeat split; auto.
  - assert (Hret : Forall (fun place => retained place = true)
                          (List.filter retained places))
      by (apply Forall_forall; intros place Hin;
          now apply filter_In in Hin).
    clear Hok Hsorted. revert Hat Hmap Hret.
    generalize (List.filter retained places).
    intros kept Hat. revert records.
    induction Hat as [|p place ps kept' Hp Hrest IH];
      intros records Hmap Hret; inversion Hmap; subst; constructor.
    + exists place. inversion Hret; subst. auto.
    + apply IH; [assumption|]. now inversion Hret.
  - intros finish'. now rewrite POST_finish_irrelevant.
Qed.

Lemma POST_preserves_provider_order_witness :
  POST demo demo_request = mkResponse (CompaniesBody demo_records) 200
  /\ exists positions,
       StronglySorted lt positions
       /\ List.length positions = List.length demo_records.
Proof.
  assert (Hok : POST demo demo_request
                = mkResponse (CompaniesBody demo_records) 200)
    by (vm_compute; reflexivity).
  split; [exact Hok|].
  destruct (POST_preserves_provider_order demo demo_request demo_records Hok)
    as (latitude & longitude & radiusKm & places & positions
        & _ & _ & Hsorted & Hat & _).
  exists positions. split; [exact Hsorted|].
  clear - Hat. induction Hat; cbn; congruence.
Defined.

(* ================================================================= *)
(** ** The content heuristics *)

Section Heuristics.

Lemma find_filter {A} (f : A -> bool) (l : list A) :
  match List.find f l with
  | Some x => exists rest, List.filter f l = x :: rest /\ f x = true
  | None => List.filter f l = []
  end.
Proof.
  induction l as [|a l IH]; cbn; [reflexivity|].
  destruct (f a) eqn:Ha; [now exists (List.filter f l)|exact IH].
Qed.

(** What [first_substantial] finds: the first matched element with a
    long enough text, every matched element before it being too short. *)
Lemma first_substantial_spec (sel : Dom.selector) (threshold : nat)
      (doc : Dom.document) (t : string) :
  first_substantial sel threshold doc = Some t <->
  exists before e after,
    Dom.select sel doc = before ++ e :: after
    /\ Forall (fun x => String.length (JsString.trim (Dom.textContent x))
                        <= threshold) before
    /\ threshold < String.length (JsString.trim (Dom.textContent e))
    /\ t = JsString.trim (Dom.textContent e).
Proof.
  unfold first_substantial.
  assert (Hsub : forall x, substantial threshold x = true <->
                   threshold < String.length
                                 (JsString.trim (Dom.textContent x))).
  { intros x. unfold substantial. cbn. apply Nat.ltb_lt. }
  induction (Dom.select sel doc) as [|x l IH]; cbn [List.find].
  - split; [discriminate|]. intros (before & e & after & H & _).
    now destruct before.
  - destruct (substantial threshold x) eqn:Hx.
    + split.
      * intros [= <-]. exists [], x, l. repeat split; auto.
        now apply Hsub.
      * intros (before & e & after & Heq & Hshort & Hlong & ->).
        destruct before as [|b before]; cbn in Heq; injection Heq as <- _;
          [reflexivity|].
        inversion Hshort; subst. apply Hsub in Hx. lia.
    + split.
      * intros H. apply IH in H.
        destruct H as (before & e & after & -> & Hshort & Hlong & ->).
        exists (x :: before), e, after. repeat split; auto.
        constructor; [|exact Hshort].
        apply Nat.nlt_ge. intros Hc. apply Hsub in Hc. congruence.
      * intros (before & e & after & Heq & Hshort & Hlong & ->).
        destruct before as [|b before]; cbn in Heq; injection Heq as <- Hl.
        -- apply Hsub in Hlong. congruence.
        -- apply IH. exists before, e, after. inversion Hshort; subst.
           repeat split; auto.
Qed.

(** What the [.filter(...)], [.length] and [.first().text().trim()] of a
    strategy compute, in terms of [first_substantial]. *)
Lemma strategy_first (sel : Dom.selector) (threshold : nat)
      (doc : Dom.document) :
  let found :=
    List.filter (substantial threshold) (Dom.select sel doc) in
  match first_substantial sel threshold doc with
  | Some t => Nat.ltb 0 (List.length found) = true
              /\ JsString.trim (Dom.text (Dom.first found)) = t
              /\ threshold < String.length t
  | None => found = []
  end.
Proof.
  intros found. unfold first_substantial, found.
  pose proof (find_filter (substantial threshold) (Dom.select sel doc)) as H.
  destruct (List.find (substantial threshold) (Dom.select sel doc))
    as [e|]; [|exact H].
  destruct H as (rest & -> & He). repeat split.
  unfold substantial in He. cbn in He. now apply Nat.ltb_lt in He.
Qed.

Lemma long_not_empty (s : string) (n : nat) :
  n < String.length s -> JsString.is_empty s = false.
Proof. destruct s; cbn; [lia|reflexivity]. Qed.

End Heuristics.

(** A strategy that found nothing falls through to the next one. *)
Ltac skip_strategy H :=
  rewrite H; change (Nat.ltb 0 (@List.length Dom.node [])) with false;
  cbv iota.

(** The decision list of the extraction, strategy by strategy. *)
Lemma extractContent_cases (doc : Dom.document) :
  let paragraph := first_substantial paragraph_selector 30 doc in
  let heading := first_substantial heading_selector 10 doc in
  let contentDiv := first_substantial content_div_selector 40 doc in
  let anyDiv := first_substantial div_selector 40 doc in
  let meta_wins m := meta_description doc = Some m /\ 20 < String.length m in
  (forall t, paragraph = Some t ->
             extractContent doc = t /\ 30 < String.length t)
  /\ (forall m, paragraph = None -> meta_wins m ->
                extractContent doc = JsString.trim m)
  /\ (forall t, paragraph = None -> (forall m, ~ meta_wins m) ->
                heading = Some t ->
                extractContent doc = t /\ 10 < String.length t)
  /\ (forall t, paragraph = None -> (forall m, ~ meta_wins m) ->
                heading = None -> contentDiv = Some t ->
                extractContent doc = JsString.substring0 300 t
                /\ 40 < String.length t)
  /\ (forall t, paragraph = None -> (forall m, ~ meta_wins m) ->
                heading = None -> contentDiv = None -> anyDiv = Some t ->
                extractContent doc = t /\ 40 < String.length t)
  /\ (paragraph = None -> (forall m, ~ meta_wins m) ->
      heading = None -> contentDiv = None -> anyDiv = None ->
      extractContent doc = NO_CONTENT).
Proof.
  intros paragraph heading contentDiv anyDiv meta_wins.
  pose proof (strategy_first paragraph_selector 30 doc) as Hp.
  pose proof (strategy_first heading_selector 10 doc) as Hh.
  pose proof (strategy_first content_div_selector 40 doc) as Hc.
  pose proof (strategy_first div_selector 40 doc) as Hd.
  fold paragraph in Hp. fold heading in Hh. fold contentDiv in Hc.
  fold anyDiv in Hd. cbv zeta in Hp, Hh, Hc, Hd.
  assert (Hmeta : (forall m, ~ meta_wins m) ->
                  meta_qualifies (meta_description doc) = false).
  { intros Hno. unfold meta_qualifies.
    destruct (meta_description doc) as [m|] eqn:Hm; [|reflexivity].
    destruct (Nat.ltb 20 (String.length m)) eqn:Hlen;
      [|apply andb_false_r].
    exfalso. apply (Hno m). split; [reflexivity|now apply Nat.ltb_lt]. }
  assert (Hwins : forall m, meta_wins m ->
                            meta_qualifies (meta_description doc) = true).
  { intros m [Hm Hlen]. unfold meta_qualifies. rewrite Hm.
    rewrite (long_not_empty m 20 Hlen). now apply Nat.ltb_lt in Hlen as ->. }
  unfold extractContent. fold (meta_description doc).
  split; [|split; [|split; [|split; [|split]]]].
  - intros t H. rewrite H in Hp. destruct Hp as (-> & Ht & Hlen).
    now split.
  - intros m H Hm. rewrite H in Hp. skip_strategy Hp.
    rewrite (Hwins m Hm). now destruct Hm as [-> _].
  - intros t H Hm Hhead. rewrite H in Hp. skip_strategy Hp.
    rewrite (Hmeta Hm). rewrite Hhead in Hh.
    destruct Hh as (-> & Ht & Hlen). now split.
  - intros t H Hm Hhead Hcont. rewrite H in Hp. skip_strategy Hp.
    rewrite (Hmeta Hm). rewrite Hhead in Hh. skip_strategy Hh.
    rewrite Hcont in Hc. destruct Hc as (-> & Ht & Hlen).
    rewrite Ht. now split.
  - intros t H Hm Hhead Hcont Hany. rewrite H in Hp. skip_strategy Hp.
    rewrite (Hmeta Hm). rewrite Hhead in Hh. skip_strategy Hh.
    rewrite Hcont in Hc. skip_strategy Hc.
    rewrite Hany in Hd. destruct Hd as (_ & Ht & Hlen). rewrite Ht.
    rewrite (long_not_empty t 40 Hlen). now split.
  - intros Hpn Hmn Hhn Hcn Hdn.
    rewrite Hpn in Hp. skip_strategy Hp.
    rewrite (Hmeta Hmn). rewrite Hhn in Hh. skip_strategy Hh.
    rewrite Hcn in Hc. skip_strategy Hc.
    rewrite Hdn in Hd. rewrite Hd. reflexivity.
Qed.

(** C3, as the code has it: the five strategies are tried in the order
    paragraph ([p]), meta description, heading ([h1, h2, h3]),
    recognised content div ([div.content, div.main, div.about,
    div#content, div#main, div.description, div.company-info]), any div,
    with the strict thresholds 30, 20, 10, 40 and 40 and the
    300-character cap on the content-div text.  A paragraph whose
    trimmed text exceeds 30 characters wins over everything; failing
    that, the meta description, which is the content of the document's
    first [meta[name="description"]] element, is returned trimmed when
    it exceeds 20 characters; failing that, the first heading above 10
    characters; failing that, the first 300 characters of the first
    recognised div above 40 characters; failing that, the first div
    above 40 characters, or the sentinel.  "First" is by document order
    among the elements the selector matches, and "exceeds" is strict. *)
Theorem extractContent_strategy_order (doc : Dom.document) :
  let paragraph := first_substantial [Dom.Tag "p"] 30 doc in
  let heading :=
    first_substantial [Dom.Tag "h1"; Dom.Tag "h2"; Dom.Tag "h3"] 10 doc in
  let contentDiv :=
    first_substantial
      [Dom.TagClass "div" "content"; Dom.TagClass "div" "main";
       Dom.TagClass "div" "about"; Dom.TagId "div" "content";
       Dom.TagId "div" "main"; Dom.TagClass "div" "description";
       Dom.TagClass "div" "company-info"] 40 doc in
  let anyDiv := first_substantial [Dom.Tag "div"] 40 doc in
  let description :=
    match Dom.select [Dom.TagAttr "meta" "name" "description"] doc with
    | Dom.Element _ attribs _ :: _ => Dom.attribute "content" attribs
    | _ => None
    end in
  let meta_wins m := description = Some m /\ 20 < String.length m in
  ((forall t, paragraph = Some t ->
              extractContent doc = t /\ 30 < String.length t)
   /\ (forall m, paragraph = None -> meta_wins m ->
                 extractContent doc = JsString.trim m)
   /\ (forall t, paragraph = None -> (forall m, ~ meta_wins m) ->
                 heading = Some t ->
                 extractContent doc = t /\ 10 < String.length t)
   /\ (forall t, paragraph = None -> (forall m, ~ meta_wins m) ->
                 heading = None -> contentDiv = Some t ->
                 extractContent doc = JsString.substring0 300 t
                 /\ 40 < String.length t)
   /\ (forall t, paragraph = None -> (forall m, ~ meta_wins m) ->
                 heading = None -> contentDiv = None -> anyDiv = Some t ->
                 extractContent doc = t /\ 40 < String.length t)
   /\ (paragraph = None -> (forall m, ~ meta_wins m) ->
       heading = None -> contentDiv = None -> anyDiv = None ->
       extractContent doc = NO_CONTENT))
  /\ (forall sel threshold t,
         first_substantial sel threshold doc = Some t <->
         exists before e after,
           Dom.select sel doc = before ++ e :: after
           /\ Forall (fun x =>
                        String.length (JsString.trim (Dom.textContent x))
                        <= threshold) before
           /\ threshold < String.length (JsString.trim (Dom.textContent e))
           /\ t = JsString.trim (Dom.textContent e)).
Proof.
  intros paragraph heading contentDiv anyDiv description meta_wins. split.
  - exact (extractContent_cases doc).
  - intros sel threshold t. apply first_substantial_spec.
Qed.

Lemma extractContent_strategy_order_witness :
  extractContent acme_page = "We build anvils and rockets since 1949."
  /\ extractContent meta_only_page = "Fresh bread every morning"
  /\ extractContent heading_page = "Welcome to our shop"
  /\ extractContent content_div_page
     = "Fifty characters of text about what the shop sells"
  /\ extractContent any_div_page
     = "Fifty characters of text about what the shop sells"
  /\ extractContent bare_page = NO_CONTENT
  /\ extractContent two_descriptions_page = "Acme Corporation".
Proof.
  assert (Hnone : forall (d : option string),
             d = None -> forall m, ~ (d = Some m /\ 20 < String.length m))
    by (intros d -> m [[=] _]).
  assert (Hshort : forall s, String.length s <= 20 ->
             forall m, ~ (Some s = Some m /\ 20 < String.length m))
    by (intros s Hs m [[= <-] Hm]; lia).
  split; [|split; [|split; [|split; [|split; [|split]]]]].
  - destruct (extractContent_strategy_order acme_page) as ((H & _) & _).
    apply (H "We build anvils and rockets since 1949."). reflexivity.
  - destruct (extractContent_strategy_order meta_only_page)
      as ((_ & H & _) & _).
    apply (H "Fresh bread every morning"); [reflexivity|].
    split; [reflexivity|cbn; lia].
  - destruct (extractContent_strategy_order heading_page)
      as ((_ & _ & H & _) & _).
    apply (H "Welcome to our shop"); [reflexivity| |reflexivity].
    apply (Hshort "Short text"). cbn; lia.
  - destruct (extractContent_strategy_order content_div_page)
      as ((_ & _ & _ & H & _) & _).
    apply (H "Fifty characters of text about what the shop sells");
      try reflexivity.
    now apply Hnone.
  - destruct (extractContent_strategy_order any_div_page)
      as ((_ & _ & _ & _ & H & _) & _).
    apply (H "Fifty characters of text about what the shop sells");
      try reflexivity.
    now apply Hnone.
  - destruct (extractContent_strategy_order bare_page)
      as ((_ & _ & _ & _ & _ & H) & _).
    apply H; try reflexivity. now apply Hnone.
  - destruct (extractContent_strategy_order two_descriptions_page)
      as ((_ & _ & H & _) & _).
    apply (H "Acme Corporation"); [reflexivity| |reflexivity].
    apply (Hshort "Home"). cbn; lia.
Defined.

(** C3 as it is worded does not hold: on a page whose first description
    element is short and whose second one exceeds 20 characters, the
    description does not win over the heading, because [.attr] reads
    the first matched element only. *)
Lemma meta_wins_as_specified_fails : ~ meta_wins_as_specified.
Proof.
  intros Hspec.
  specialize (Hspec two_descriptions_page "meta"
                    [("name", "description");
                     ("content", "Acme makes everything you need.")]
                    [] "Acme makes everything you need.").
  assert (Hresult : extractContent two_descriptions_page
                    = JsString.trim "Acme makes everything you need.").
  { apply Hspec.
    - reflexivity.
    - cbn. right. left. reflexivity.
    - reflexivity.
    - cbn. lia. }
  vm_compute in Hresult. discriminate.
Qed.

Example extractContent_meta_only :
  extractContent meta_only_page = "Fresh bread every morning".
Proof. reflexivity. Qed.

Example extractContent_content_div :
  extractContent content_div_page
  = "Fifty characters of text about what the shop sells".
Proof. reflexivity. Qed.

(** The thresholds are strict: a 30-character paragraph does not count,
    a 31-character one does. *)
Example paragraph_threshold_is_strict :
  extractContent
    [Dom.Element "p" [] [Dom.Text "123456789012345678901234567890"]]
  = NO_CONTENT
  /\ extractContent
       [Dom.Element "p" [] [Dom.Text "1234567890123456789012345678901"]]
     = "1234567890123456789012345678901".
Proof. split; reflexivity. Qed.

Section NonEmpty.

Lemma substring0_not_empty (n : nat) (s : string) :
  0 < n -> JsString.is_empty s = false ->
  JsString.is_empty (JsString.substring0 n s) = false.
Proof. destruct n, s; cbn; intros; try lia; congruence. Qed.

(** X13: the extraction returns the empty string only through the meta
    description strategy: no paragraph qualifies, the content is longer
    than 20 characters and nothing is left of it after trimming. *)
Lemma extractContent_empty_only_from_meta (doc : Dom.document) :
  extractContent doc = "" ->
  first_substantial paragraph_selector 30 doc = None
  /\ exists m, meta_description doc = Some m
               /\ 20 < String.length m
               /\ JsString.trim m = "".
Proof.
  intros Hempty.
  destruct (extractContent_cases doc) as (Hp & Hm & Hh & Hc & Hd & Hn).
  destruct (first_substantial paragraph_selector 30 doc) as [t|] eqn:Ept.
  { destruct (Hp t eq_refl) as [Ht Hlen]. rewrite Hempty in Ht. subst t.
    cbn in Hlen. lia. }
  split; [reflexivity|].
  destruct (meta_description doc) as [m|] eqn:Em.
  - destruct (Nat.lt_ge_cases 20 (String.length m)) as [Hlong|Hshort].
    + exists m. repeat split; auto.
      rewrite <- (Hm m eq_refl (conj eq_refl Hlong)). exact Hempty.
    + exfalso.
      assert (Hno : forall m', ~ (Some m = Some m' /\ 20 < String.length m'))
        by (intros m' [[= <-] Hl]; lia).
      clear Hm Hp.
      destruct (first_substantial heading_selector 10 doc) as [t|] eqn:Eh.
      { destruct (Hh t eq_refl Hno eq_refl) as [Ht Hlen].
        rewrite Hempty in Ht. subst t. cbn in Hlen. lia. }
      destruct (first_substantial content_div_selector 40 doc)
        as [t|] eqn:Ec.
      { destruct (Hc t eq_refl Hno eq_refl eq_refl) as [Ht Hlen].
        rewrite Hempty in Ht.
        pose proof (substring0_not_empty 300 t ltac:(lia)
                      (long_not_empty t 40 Hlen)) as Hne.
        rewrite <- Ht in Hne. discriminate. }
      destruct (first_substantial div_selector 40 doc) as [t|] eqn:Ed.
      { destruct (Hd t eq_refl Hno eq_refl eq_refl eq_refl) as [Ht Hlen].
        rewrite Hempty in Ht. subst t. cbn in Hlen. lia. }
      rewrite (Hn eq_refl Hno eq_refl eq_refl eq_refl) in Hempty.
      discriminate.
  - exfalso.
    assert (Hno : forall m', ~ (@None string = Some m'
                                /\ 20 < String.length m'))
      by (intros m' [[=] _]).
    clear Hm Hp.
    destruct (first_substantial heading_selector 10 doc) as [t|] eqn:Eh.
    { destruct (Hh t eq_refl Hno eq_refl) as [Ht Hlen].
      rewrite Hempty in Ht. subst t. cbn in Hlen. lia. }
    destruct (first_substantial content_div_selector 40 doc)
      as [t|] eqn:Ec.
    { destruct (Hc t eq_refl Hno eq_refl eq_refl) as [Ht Hlen].
      rewrite Hempty in Ht.
      pose proof (substring0_not_empty 300 t ltac:(lia)
                    (long_not_empty t 40 Hlen)) as Hne.
      rewrite <- Ht in Hne. discriminate. }
    destruct (first_substantial div_selector 40 doc) as [t|] eqn:Ed.
    { destruct (Hd t eq_refl Hno eq_refl eq_refl eq_refl) as [Ht Hlen].
      rewrite Hempty in Ht. subst t. cbn in Hlen. lia. }
    rewrite (Hn eq_refl Hno eq_refl eq_refl eq_refl) in Hempty.
    discriminate.
Qed.

End NonEmpty.

(** C6 fails on the code: a meta description of 21 blanks passes the
    length test, which is made before trimming, and the extraction
    returns the empty string instead of text or the sentinel. *)
Theorem extractContent_blank_meta_description :
  meta_description blank_meta_page = Some "                     "
  /\ first_substantial paragraph_selector 30 blank_meta_page = None
  /\ extractContent blank_meta_page = "".
Proof. repeat split. Qed.

(* ================================================================= *)
(** ** The retry loop *)

Section Retry.

Lemma url_not_empty (url : string) :
  url <> "" -> JsString.is_empty url = false.
Proof. destruct url; [congruence|reflexivity]. Qed.

(** The loop never runs out of iterations with no error recorded: the
    promise of [scrapeWebsite] is always fulfilled. *)
Lemma scrapeWebsite_fulfilled (w : web) (url : string) :
  exists content, snd (scrapeWebsite w url) = Return content.
Proof.
  unfold scrapeWebsite.
  destruct (JsString.is_empty url); [now exists None|].
  unfold maxAttempts. cbn [scrapeLoop].
  set (site := w (formattedUrl url)).
  destruct (site 1) as [doc|e1]; [cbn; eauto|].
  destruct (isRetryable e1); [|cbn; eauto]. cbn [Nat.ltb Nat.leb].
  destruct (site 2) as [doc|e2]; [cbn; eauto|].
  destruct (isRetryable e2); [|cbn; eauto]. cbn [Nat.ltb Nat.leb].
  destruct (site 3) as [doc|e3]; [cbn; eauto|].
  destruct (isRetryable e3); cbn; eauto.
Qed.

End Retry.

(** Settles each clause of the retry policy once the answers of the
    site and the class of each error are known. *)
Ltac settle_retry_case Hk :=
  cbn;
  split; [lia|];
  split; [eauto|];
  split; [reflexivity|];
  split;
    [ intros k error Hrange Hmade Hfail;
      destruct (Hk k Hrange) as [-> | ->]; split; intros;
      try lia; try congruence
    | split;
      [ intros a b c Ha Hb Hc Hra Hrb Hrc; try congruence;
        repeat split; congruence
      | intros a Ha Hra; try congruence; repeat split; congruence ] ].

(** The test of the [catch] clause, spelled out. *)
Lemma isRetryable_test (error : JsError) :
  isRetryable error = true <->
  (code error = Some "ECONNABORTED"
   \/ exists m, message error = Some m
                /\ JsString.includes m "timeout" = true).
Proof.
  unfold isRetryable. rewrite orb_true_iff. split.
  - intros [H|H].
    + left. destruct (code error) as [c|]; [|discriminate].
      apply String.eqb_eq in H. now subst.
    + right. destruct (message error) as [m|]; [|discriminate]. eauto.
  - intros [H|(m & Hm & H)].
    + left. rewrite H. reflexivity.
    + right. now rewrite Hm.
Qed.

(** X25: the retry loop as the code has it: an error is retried when
    its code is ECONNABORTED or its message contains "timeout", and in
    no other case; for a non-empty URL [scrapeWebsite] calls the site at
    least once and at most three times and always returns a string;
    after a failed attempt that is not the third it tries again exactly
    when the error passes that test; every retry follows a wait of 1000
    ms; a site that fails three times with such errors is called exactly
    three times, with two waits, and a site that first fails with any
    other error is called exactly once; both give the failure string
    made of the marker and the last error's message. *)
Theorem scrapeWebsite_retry_policy (w : web) (url : string) :
  url <> "" ->
  let site := w (formattedUrl url) in
  let trace := fst (scrapeWebsite w url) in
  let result := snd (scrapeWebsite w url) in
  (forall error,
      isRetryable error = true <->
      (code error = Some "ECONNABORTED"
       \/ exists m, message error = Some m
                    /\ JsString.includes m "timeout" = true))
  /\ 1 <= fetch_count trace <= 3
  /\ (exists content, result = Return (Some content))
  /\ sleeps trace = repeat 1000 (fetch_count trace - 1)
  /\ (forall k error,
         1 <= k < 3 -> k <= fetch_count trace -> site k = Failed error ->
         (k < fetch_count trace <-> isRetryable error = true))
  /\ (forall e1 e2 e3,
         site 1 = Failed e1 -> site 2 = Failed e2 -> site 3 = Failed e3 ->
         isRetryable e1 = true -> isRetryable e2 = true ->
         isRetryable e3 = true ->
         fetch_count trace = 3
         /\ sleeps trace = [1000; 1000]
         /\ result = Return (Some (FAILURE_MARKER ++ message_text e3)%string))
  /\ (forall e1,
         site 1 = Failed e1 -> isRetryable e1 = false ->
         fetch_count trace = 1
         /\ sleeps trace = []
         /\ result = Return (Some (FAILURE_MARKER ++ message_text e1)%string)).
Proof.
  intros Hurl site trace result. subst trace result site.
  split; [exact isRetryable_test|].
  unfold scrapeWebsite. rewrite (url_not_empty url Hurl).
  unfold maxAttempts. cbn [scrapeLoop].
  generalize (w (formattedUrl url)) as site.
  generalize (formattedUrl url) as target. intros target site.
  assert (Hk : forall k, 1 <= k < 3 -> k = 1 \/ k = 2) by lia.
  destruct (site 1) as [doc1|e1] eqn:E1; [settle_retry_case Hk|].
  destruct (isRetryable e1) eqn:R1; cbn [Nat.ltb Nat.leb];
    [|settle_retry_case Hk].
  destruct (site 2) as [doc2|e2] eqn:E2; [settle_retry_case Hk|].
  destruct (isRetryable e2) eqn:R2; cbn [Nat.ltb Nat.leb];
    [|settle_retry_case Hk].
  destruct (site 3) as [doc3|e3] eqn:E3; [settle_retry_case Hk|].
  destruct (isRetryable e3) eqn:R3; settle_retry_case Hk.
Qed.

Lemma scrapeWebsite_retry_policy_witness :
  "example.com" <> ""
  /\ fetch_count
       (fst (scrapeWebsite (always (Failed axios_timeout)) "example.com")) = 3
  /\ sleeps
       (fst (scrapeWebsite (always (Failed axios_timeout)) "example.com"))
     = [1000; 1000]
  /\ snd (scrapeWebsite (always (Failed axios_timeout)) "example.com")
     = Return (Some "Failed to scrape: timeout of 15000ms exceeded").
Proof.
  assert (Hurl : "example.com" <> "") by discriminate.
  split; [exact Hurl|].
  destruct (scrapeWebsite_retry_policy (always (Failed axios_timeout))
                                       "example.com" Hurl)
    as (_ & _ & _ & _ & _ & Hthree & _).
  exact (Hthree axios_timeout axios_timeout axios_timeout
                eq_refl eq_refl eq_refl eq_refl eq_refl eq_refl).
Defined.

(** C1 fails on the code: the comment above the test says "Only retry
    on timeout or network errors", but the test is on the code
    ECONNABORTED and on the word "timeout" in the message only.  A
    connection reset (code ECONNRESET, message "read ECONNRESET") is a
    network-level connection error and passes neither: a site that
    resets every connection is called once, with no wait, and the
    failure string is returned after that single attempt. *)
Theorem scrapeWebsite_connection_reset_once :
  code connection_reset = Some "ECONNRESET"
  /\ message connection_reset = Some "read ECONNRESET"
  /\ isRetryable connection_reset = false
  /\ (forall error,
         isRetryable error = true <->
         (code error = Some "ECONNABORTED"
          \/ exists m, message error = Some m
                       /\ JsString.includes m "timeout" = true))
  /\ (forall c rest,
         let url := String c rest in
         let run := scrapeWebsite (always (Failed connection_reset)) url in
         fetch_count (fst run) = 1
         /\ sleeps (fst run) = []
         /\ snd run = Return (Some "Failed to scrape: read ECONNRESET")).
Proof.
  split; [reflexivity|]. split; [reflexivity|]. split; [reflexivity|].
  split; [exact isRetryable_test|].
  intros c rest url run. subst run url. unfold scrapeWebsite.
  cbn [JsString.is_empty]. unfold maxAttempts, always. cbn [scrapeLoop].
  change (isRetryable connection_reset) with false. cbv iota.
  repeat split.
Qed.

Example scrape_404_once :
  fetch_count (fst (scrapeWebsite (always (Failed http_404)) "example.com"))
  = 1
  /\ snd (scrapeWebsite (always (Failed http_404)) "example.com")
     = Return (Some "Failed to scrape: Request failed with status code 404").
Proof. split; reflexivity. Qed.

(** C9 fails on the code: the test is whether the URL starts with the
    four characters "http", not whether it carries a scheme.  A host
    name that starts with "http" is requested without any scheme, and a
    URL with another scheme gets the secure scheme put in front of its
    own. *)
Theorem formattedUrl_tests_http_prefix :
  formattedUrl "httpbin.org" = "httpbin.org"
  /\ requested (fst (scrapeWebsite (always (Fetched [])) "httpbin.org"))
     = ["httpbin.org"]
  /\ formattedUrl "ftp://files.example.org" = "https://ftp://files.example.org"
  /\ (forall url, formattedUrl url
                  = if String.prefix "http" url then url
                    else ("https://" ++ url)%string).
Proof. repeat split. Qed.

(* ================================================================= *)
(** ** The presentation decoder *)

Section Decoder.

Lemma trim_marker_not_empty (rest : string) :
  JsString.is_empty (JsString.trim (FAILURE_MARKER ++ rest)) = false.
Proof.
  unfold FAILURE_MARKER, JsString.trim. cbn [append JsString.trimStart].
  change (JsString.is_whitespace "F") with false. cbv iota.
  cbn [JsString.trimEnd].
  now destruct (JsString.trimEnd _).
Qed.

(** A failure diagnostic is decoded as a failure only when the error's
    message happens to contain "ERROR:". *)
Lemma getScrapeStatus_diagnostic (msg : string) :
  success (getScrapeStatus (Some (FAILURE_MARKER ++ msg)%string))
  = negb (JsString.includes (FAILURE_MARKER ++ msg) "ERROR:").
Proof.
  unfold getScrapeStatus.
  destruct (JsString.includes (FAILURE_MARKER ++ msg) "ERROR:");
    [reflexivity|].
  now rewrite trim_marker_not_empty.
Qed.

End Decoder.

(** C5 fails on the code: the decoder looks for "ERROR:" and never for
    the scraper's marker, so the diagnostic of a scrape that timed out
    three times is decoded as a success.  The null half holds: null is
    decoded as NOT_ATTEMPTED. *)
Theorem getScrapeStatus_failed_scrape_is_success :
  snd (scrapeWebsite (always (Failed axios_timeout)) "example.com")
  = Return (Some "Failed to scrape: timeout of 15000ms exceeded")
  /\ getScrapeStatus (Some "Failed to scrape: timeout of 15000ms exceeded")
     = mkStatus true None
  /\ getScrapeStatus None = mkStatus false (Some "NOT_ATTEMPTED")
  /\ (forall msg,
         JsString.includes (FAILURE_MARKER ++ msg) "ERROR:" = false ->
         getScrapeStatus (Some (FAILURE_MARKER ++ msg)%string)
         = mkStatus true None).
Proof.
  repeat split. intros msg Hno.
  pose proof (getScrapeStatus_diagnostic msg) as Hs.
  rewrite Hno in Hs. unfold getScrapeStatus in *. rewrite Hno in *.
  now rewrite trim_marker_not_empty.
Qed.

(* ================================================================= *)
(** ** The places lookup *)



(* ================================================================= *)
(** ** The request check of the handler *)

Section BadRequest.

(** X2: for a body that is neither null nor undefined, the handler
    answers 400 exactly when a coordinate of the body is falsy (absent,
    null, 0, NaN, the empty string or false). *)
Lemma POST_bad_request_iff (env : Environment) (json : value) :
  json <> JUndefined -> json <> JNull ->
  (POST env (Return json) = REQUIRED <->
   Js.truthy json?."latitude" = false
   \/ Js.truthy json?."longitude" = false).
Proof.
  intros Hu Hn. unfold POST. cbn [bind].
  assert (Hget : forall k, Js.get json k = Return json?.k)
    by (intros k; destruct json; try reflexivity; congruence).
  rewrite !Hget. cbn [bind].
  destruct (Js.truthy json?."latitude"); cbn [negb orb];
    [|split; [now left|reflexivity]].
  destruct (Js.truthy json?."longitude"); cbn [negb orb];
    [|split; [now right|reflexivity]].
  split; [|intros [H|H]; discriminate].
  intros H. exfalso.
  repeat match type of H with
         | context [bind ?c _] =>
             destruct c; cbn [bind] in H; try discriminate
         end.
Qed.

End BadRequest.

(** C4 fails on the code: the test is [!latitude || !longitude], and
    the number 0 is falsy, so a body that carries both coordinates is
    answered with the 400 of a missing coordinate when one of them is 0
    (a point on the equator or on the prime meridian). *)
Theorem POST_rejects_zero_coordinate (env : Environment) :
  POST env (Return (search_body 0 13.405)) = REQUIRED
  /\ POST env (Return (search_body 52.52 0)) = REQUIRED
  /\ POST env (Return (JObj [("longitude", JNum 13.405%float)])) = REQUIRED.
Proof. repeat split. Qed.

(* ================================================================= *)
(** * Further properties of the handler *)

Section Handler.

Lemma get_object (json : value) (k : string) :
  json <> JUndefined -> json <> JNull -> Js.get json k = Return json?.k.
Proof. intros Hu Hn. destruct json; try reflexivity; congruence. Qed.


(** The callback throws exactly when the place, or its properties bag,
    is null or undefined. *)
Lemma hasEmail_throws (company : value) :
  (exists e, hasEmail company = Throw e) <->
  (company = JUndefined \/ company = JNull
   \/ company?."properties" = JUndefined
   \/ company?."properties" = JNull).
Proof.
  unfold hasEmail. split.
  - intros [e H].
    destruct company; cbn in H; auto;
      match type of H with
      | context [Js.get ?p "contact"] =>
          destruct p eqn:Hp; cbn in H; auto; discriminate
      end.
  - intros [->|[->|[H|H]]]; cbn; eauto;
      destruct company; cbn in *; eauto; rewrite H; cbn; eauto.
Qed.

Lemma filterM_throws (f : value -> completion value) (items : list value) :
  (exists e, filterM f items = Throw e) <->
  (exists c e, In c items /\ f c = Throw e).
Proof.
  induction items as [|x rest IH]; cbn.
  - split; [intros [e H]; discriminate|intros (c & e & [] & _)].
  - destruct (f x) as [keep|e] eqn:Hx; cbn [bind].
    + destruct (filterM f rest) as [kept|e'] eqn:Hrest; cbn [bind].
      * split; [intros [e H]; discriminate|].
        intros (c & e & [<-|Hin] & Hc); [congruence|].
        destruct (proj2 IH) as [e' He']; [eauto|discriminate].
      * split; [|eauto]. intros _.
        destruct (proj1 IH) as (c & e & Hin & Hc); eauto.
    + split; [|eauto]. intros _. exists x, e. auto.
Qed.

(** A website that is not null is truthy: the chain ends in [|| null]. *)
Lemma extractWebsite_null_or_truthy (company v : value) :
  extractWebsite company = Return v -> v = JNull \/ Js.truthy v = true.
Proof.
  unfold extractWebsite. intros H.
  destruct (Js.get company "properties") as [props|e]; cbn [bind] in H;
    [|discriminate].
  destruct (Js.get props "contact") as [contact|e]; cbn [bind] in H;
    [|discriminate].
  injection H as <-.
  match goal with
  | |- ?x ||| JNull = _ \/ _ => generalize x
  end.
  intros y. unfold Js.or. destruct (Js.truthy y) eqn:Hy; auto.
Qed.

End Handler.

Lemma POST_bad_request_iff_witness :
  POST offline (Return (search_body 0 13.405)) = REQUIRED.
Proof.
  apply (POST_bad_request_iff offline (search_body 0 13.405));
    [discriminate|discriminate|].
  left. reflexivity.
Defined.

Lemma extractContent_empty_only_from_meta_witness :
  exists m, meta_description blank_meta_page = Some m
            /\ 20 < String.length m /\ JsString.trim m = "".
Proof.
  exact (proj2 (extractContent_empty_only_from_meta blank_meta_page eq_refl)).
Defined.

(** X1: the handler answers every request, whatever it holds, with one
    of three responses: 400 with the required-fields message, 500 with
    the generic failure message, or 200 with a list of records. *)
Theorem POST_response_shapes (env : Environment)
        (request_json : completion value) :
  POST env request_json = REQUIRED
  \/ POST env request_json = FAILED
  \/ exists records,
       POST env request_json = mkResponse (CompaniesBody records) 200.
Proof.
  unfold POST.
  destruct request_json as [json|e]; cbn [bind]; [|auto].
  destruct (Js.get json "latitude") as [latitude|e]; cbn [bind]; [|auto].
  destruct (Js.get json "longitude") as [longitude|e]; cbn [bind]; [|auto].
  destruct (Js.get json "radius") as [given|e]; cbn [bind]; [|auto].
  destruct (negb (Js.truthy latitude) || negb (Js.truthy longitude)); [auto|].
  repeat match goal with
         | |- context [bind ?c _] => destruct c; cbn [bind]; [|auto]
         end.
  right. right. eauto.
Qed.







Section Scraper.

(** For a non-empty URL the result is a string, never null. *)
Lemma scrapeWebsite_string (w : web) (url : string) :
  url <> "" ->
  exists content, snd (scrapeWebsite w url) = Return (Some content).
Proof.
  intros Hurl. unfold scrapeWebsite. rewrite (url_not_empty url Hurl).
  unfold maxAttempts. cbn [scrapeLoop].
  set (site := w (formattedUrl url)).
  destruct (site 1) as [doc|e1]; [cbn; eauto|].
  destruct (isRetryable e1); [|cbn; eauto]. cbn [Nat.ltb Nat.leb].
  destruct (site 2) as [doc|e2]; [cbn; eauto|].
  destruct (isRetryable e2); [|cbn; eauto]. cbn [Nat.ltb Nat.leb].
  destruct (site 3) as [doc|e3]; [cbn; eauto|].
  destruct (isRetryable e3); cbn; eauto.
Qed.

Lemma truthy_string (s : string) :
  Js.truthy (JStr s) = true <-> s <> "".
Proof. destruct s; cbn; split; congruence. Qed.

(** Every request of the loop goes to the URL it was given, with the
    scrape timeout. *)
Lemma scrapeLoop_requests (site : endpoint) (target : string)
      (remaining attempt : nat) (lastError : option JsError) :
  Forall (fun e => match e with
                   | EvGet u t => u = target /\ t = SCRAPE_TIMEOUT_MS
                   | _ => True
                   end)
         (fst (scrapeLoop site target attempt remaining lastError)).
Proof.
  revert attempt lastError.
  induction remaining as [|remaining IH]; intros attempt lastError;
    cbn [scrapeLoop].
  - constructor.
  - destruct (site attempt) as [doc|err]; [repeat constructor|].
    destruct (isRetryable err); [|repeat constructor].
    destruct (Nat.ltb attempt maxAttempts); [|repeat constructor].
    specialize (IH (S attempt) (Some err)).
    destruct (scrapeLoop site target (S attempt) remaining (Some err))
      as [trace exit].
    cbn [fst] in *. constructor; [split; reflexivity|].
    constructor; [exact I|]. constructor; [exact I|exact IH].
Qed.

End Scraper.

(** X6: in a 200 response every record either has a null website and a
    null scrapedContent, or has a non-empty string as website and, as
    scrapedContent, the string that [scrapeWebsite] returned for it. *)
Theorem POST_records_scraped (env : Environment)
        (request_json : completion value) (records : list CompanyRecord)
        (record : CompanyRecord) :
  POST env request_json = mkResponse (CompaniesBody records) 200 ->
  In record records ->
  (website record = JNull /\ scrapedContent record = None)
  \/ exists url content,
       website record = JStr url /\ url <> ""
       /\ scrapedContent record = Some content
       /\ snd (scrapeWebsite (sites env) url) = Return (Some content).
Proof.
  intros Hok Hin.
  destruct (POST_ok env request_json records Hok)
    as (latitude & longitude & radiusKm & places & _ & Hmap).
  apply (in_map Return) in Hin. rewrite <- Hmap in Hin.
  apply in_map_iff in Hin. destruct Hin as (place & Hplace & _).
  unfold processCompany in Hplace.
  destruct (extractWebsite place) as [site|e] eqn:Hsite; cbn [bind] in Hplace;
    [|discriminate].
  destruct (extractEmail place) as [address|e]; cbn [bind] in Hplace;
    [|discriminate].
  destruct (extractWebsite_null_or_truthy place site Hsite) as [->|Htrue].
  - cbn in Hplace.
    destruct (Js.get place "properties"); cbn [bind] in Hplace;
      [|discriminate].
    injection Hplace as <-. now left.
  - rewrite Htrue in Hplace.
    destruct site as [| | | |url| |]; cbn [bind] in Hplace; try discriminate.
    apply truthy_string in Htrue.
    destruct (scrapeWebsite_string (sites env) url Htrue) as [content Hc].
    rewrite Hc in Hplace. cbn [bind] in Hplace.
    destruct (Js.get place "properties"); cbn [bind] in Hplace;
      [|discriminate].
    injection Hplace as <-. right. exists url, content. auto.
Qed.

Lemma POST_records_scraped_witness :
  exists url content,
    website acme_record = JStr url /\ url <> ""
    /\ scrapedContent acme_record = Some content
    /\ snd (scrapeWebsite (sites demo) url) = Return (Some content).
Proof.
  assert (Hok : POST demo demo_request
                = mkResponse (CompaniesBody demo_records) 200)
    by (vm_compute; reflexivity).
  destruct (POST_records_scraped demo demo_request demo_records acme_record
                                 Hok (or_introl eq_refl))
    as [[Hnull _]|Hscraped]; [discriminate Hnull|exact Hscraped].
Defined.

(** X7: a body with no [radius] key is handled as the same body with
    radius 2.5. *)
Theorem POST_default_radius (env : Environment)
        (fields : list (string * value)) :
  Js.lookup "radius" fields = JUndefined ->
  POST env (Return (JObj fields))
  = POST env (Return (JObj (("radius", JNum 2.5%float) :: fields))).
Proof.
  intros Hnone. unfold POST. cbn [bind Js.get Js.opt].
  change (Js.lookup "latitude" (("radius", JNum 2.5%float) :: fields))
    with (Js.lookup "latitude" fields).
  change (Js.lookup "longitude" (("radius", JNum 2.5%float) :: fields))
    with (Js.lookup "longitude" fields).
  change (Js.lookup "radius" (("radius", JNum 2.5%float) :: fields))
    with (JNum 2.5%float).
  rewrite Hnone. reflexivity.
Qed.

Lemma POST_default_radius_witness :
  POST demo (Return (search_body 52.52 13.405))
  = POST demo (Return (JObj (("radius", JNum 2.5%float)
                             :: [("latitude", JNum 52.52%float);
                                 ("longitude", JNum 13.405%float)]))).
Proof.
  apply (POST_default_radius demo). reflexivity.
Defined.

(** X8: the default applies to an absent radius only: a body with
    truthy coordinates and [radius: null] is answered 500, because
    [radius.toString()] throws. *)
Theorem POST_null_radius (env : Environment) (json : value) :
  Js.truthy json?."latitude" = true ->
  Js.truthy json?."longitude" = true ->
  json?."radius" = JNull ->
  POST env (Return json) = FAILED.
Proof.
  intros Hlat Hlon Hrad.
  assert (Hu : json <> JUndefined) by (intros ->; discriminate).
  assert (Hn : json <> JNull) by (intros ->; discriminate).
  unfold POST. cbn [bind]. rewrite !(get_object json _ Hu Hn). cbn [bind].
  rewrite Hlat, Hlon, Hrad. reflexivity.
Qed.

Lemma POST_null_radius_witness :
  POST demo (Return (JObj [("latitude", JNum 52.52%float);
                           ("longitude", JNum 13.405%float);
                           ("radius", JNull)]))
  = FAILED.
Proof. apply POST_null_radius; reflexivity. Defined.

(* ================================================================= *)
(** * Further properties of the scraper *)

(** X9: the promise of [scrapeWebsite] is never rejected; it resolves
    with null exactly when the URL is the empty string, and then no
    request is made. *)
Theorem scrapeWebsite_null_iff_empty (w : web) (url : string) :
  (exists result, snd (scrapeWebsite w url) = Return result)
  /\ (snd (scrapeWebsite w url) = Return None <-> url = "")
  /\ (url = "" -> fst (scrapeWebsite w url) = []).
Proof.
  split; [apply scrapeWebsite_fulfilled|]. split; [split|].
  - intros Hnull. destruct url as [|c rest]; [reflexivity|].
    destruct (scrapeWebsite_string w (String c rest)) as [content Hc];
      [discriminate|congruence].
  - intros ->. reflexivity.
  - intros ->. reflexivity.
Qed.

(** X10: every request of a scrape goes to the formatted URL, with the
    timeout of 15000 ms. *)
Theorem scrapeWebsite_requests (w : web) (url : string) :
  Forall (fun e => match e with
                   | EvGet u t => u = formattedUrl url /\ t = 15000
                   | _ => True
                   end)
         (fst (scrapeWebsite w url)).
Proof.
  unfold scrapeWebsite. destruct (JsString.is_empty url); [constructor|].
  pose proof (scrapeLoop_requests (w (formattedUrl url)) (formattedUrl url)
                                  maxAttempts 1 None) as Hloop.
  destruct (scrapeLoop (w (formattedUrl url)) (formattedUrl url) 1
                       maxAttempts None) as [trace exit].
  cbn [fst] in Hloop.
  destruct exit as [content|[lastError|]]; cbn [fst]; auto;
    apply Forall_app; split; auto; repeat constructor.
Qed.

(** X11: a site that answers at attempt [k] (1, 2 or 3) after timing
    out at every earlier attempt is scraped successfully: the result is
    the content extracted from its page, after exactly [k] requests and
    [k - 1] waits of 1000 ms. *)
Theorem scrapeWebsite_recovers (w : web) (url : string) (k : nat)
        (doc : Dom.document) :
  url <> "" ->
  1 <= k <= 3 ->
  (forall j, 1 <= j < k ->
             exists e, w (formattedUrl url) j = Failed e
                       /\ isRetryable e = true) ->
  w (formattedUrl url) k = Fetched doc ->
  snd (scrapeWebsite w url) = Return (Some (extractContent doc))
  /\ fetch_count (fst (scrapeWebsite w url)) = k
  /\ sleeps (fst (scrapeWebsite w url)) = repeat 1000 (k - 1).
Proof.
  intros Hurl Hk Hbefore Hat.
  unfold scrapeWebsite. rewrite (url_not_empty url Hurl).
  unfold maxAttempts. cbn [scrapeLoop].
  revert Hbefore Hat. generalize (w (formattedUrl url)) as site.
  generalize (formattedUrl url) as target. intros target site Hbefore Hat.
  assert (Hcases : k = 1 \/ k = 2 \/ k = 3) by lia.
  destruct Hcases as [-> | [-> | ->]].
  - rewrite Hat. cbn. auto.
  - destruct (Hbefore 1 ltac:(lia)) as (e1 & -> & ->).
    cbn [Nat.ltb Nat.leb]. rewrite Hat. cbn. auto.
  - destruct (Hbefore 1 ltac:(lia)) as (e1 & -> & ->).
    cbn [Nat.ltb Nat.leb].
    destruct (Hbefore 2 ltac:(lia)) as (e2 & -> & ->).
    cbn [Nat.ltb Nat.leb]. rewrite Hat. cbn. auto.
Qed.

Lemma scrapeWebsite_recovers_witness :
  snd (scrapeWebsite slow_start "acme.example")
  = Return (Some "We build anvils and rockets since 1949.")
  /\ fetch_count (fst (scrapeWebsite slow_start "acme.example")) = 2
  /\ sleeps (fst (scrapeWebsite slow_start "acme.example")) = [1000].
Proof.
  apply (scrapeWebsite_recovers slow_start "acme.example" 2 acme_page).
  - discriminate.
  - lia.
  - intros j Hj. assert (j = 1) as -> by lia.
    exists axios_timeout. split; reflexivity.
  - reflexivity.
Defined.

(** X12: formatting a URL is idempotent and its result always starts
    with "http"; the table's link target is formed by the same
    expression. *)
Theorem formattedUrl_idempotent (url : string) :
  JsString.startsWith (formattedUrl url) "http" = true
  /\ formattedUrl (formattedUrl url) = formattedUrl url.
Proof.
  assert (Hstarts : JsString.startsWith (formattedUrl url) "http" = true).
  { unfold formattedUrl.
    destruct (JsString.startsWith url "http") eqn:Hs; [exact Hs|].
    reflexivity. }
  split; [exact Hstarts|].
  unfold formattedUrl at 1. now rewrite Hstarts.
Qed.

(* ================================================================= *)
(** * Further properties of the extraction and of the decoder *)

Section Strings.

Lemma length_append (a b : string) :
  String.length (a ++ b) = String.length a + String.length b.
Proof. induction a; cbn; congruence. Qed.

Lemma length_substring0 (n : nat) (s : string) :
  String.length (JsString.substring0 n s) = Nat.min n (String.length s).
Proof.
  unfold JsString.substring0. revert s.
  induction n as [|n IH]; intros [|c s]; cbn; auto.
Qed.

Lemma drop_length (n : nat) (s : string) :
  String.length (drop n s) = String.length s - n.
Proof. revert s. induction n as [|n IH]; intros [|c s]; cbn; auto. Qed.

Lemma word_char_not_whitespace (c : ascii) :
  is_word_char c = true -> JsString.is_whitespace c = false.
Proof.
  destruct c as [[] [] [] [] [] [] [] []]; vm_compute; congruence.
Qed.

Lemma take_word_all (s : string) :
  all_chars is_word_char (take_word s) = true.
Proof.
  induction s as [|c s IH]; cbn; [reflexivity|].
  destruct (is_word_char c) eqn:Hc; cbn; [now rewrite Hc|reflexivity].
Qed.

Lemma errorMatch_eq (content : string) :
  errorMatch content
  = let here :=
      if String.prefix "ERROR:" content
      then take_word (JsString.trimStart (drop 6 content))
      else EmptyString in
    if negb (JsString.is_empty here) then Some here
    else match content with
         | EmptyString => None
         | String _ rest => errorMatch rest
         end.
Proof. destruct content; reflexivity. Qed.

Lemma errorMatch_some (content code : string) :
  errorMatch content = Some code ->
  JsString.is_empty code = false /\ all_chars is_word_char code = true.
Proof.
  induction content as [|c rest IH]; rewrite errorMatch_eq;
    match goal with
    | |- (let here := ?h in _) = _ -> _ => set (here := h); cbv zeta
    end;
    destruct (JsString.is_empty here) eqn:Hh; cbn [negb];
    try discriminate; try exact IH.
  intros [= <-]. split; [exact Hh|]. subst here.
  destruct (String.prefix "ERROR:" (String c rest));
    [apply take_word_all|reflexivity].
Qed.

Lemma trimStart_gap (gap rest : string) :
  all_chars JsString.is_whitespace gap = true ->
  JsString.trimStart (gap ++ rest) = JsString.trimStart rest.
Proof.
  induction gap as [|c gap IH]; cbn; [reflexivity|].
  destruct (JsString.is_whitespace c); cbn; [exact IH|discriminate].
Qed.

Lemma take_word_code (code rest : string) :
  all_chars is_word_char code = true ->
  (rest = "" \/ exists c r, rest = String c r /\ is_word_char c = false) ->
  take_word (code ++ rest) = code.
Proof.
  intros Hcode Hrest. induction code as [|c code IH]; cbn in *.
  - destruct Hrest as [->|(c & r & -> & Hc)]; cbn; [reflexivity|].
    now rewrite Hc.
  - apply andb_prop in Hcode. destruct Hcode as [Hc Hcode].
    rewrite Hc. f_equal. now apply IH.
Qed.

End Strings.

(** X14: when the content-div strategy fires, the result is the first
    300 characters of the div's trimmed text: it is longer than 40 and
    at most 300 characters long. *)
Theorem extractContent_content_div_capped (doc : Dom.document) (t : string) :
  first_substantial paragraph_selector 30 doc = None ->
  (forall m, ~ (meta_description doc = Some m /\ 20 < String.length m)) ->
  first_substantial heading_selector 10 doc = None ->
  first_substantial content_div_selector 40 doc = Some t ->
  extractContent doc = JsString.substring0 300 t
  /\ String.length (extractContent doc) = Nat.min 300 (String.length t)
  /\ 40 < String.length (extractContent doc) <= 300.
Proof.
  intros Hp Hm Hh Hc.
  destruct (extractContent_cases doc) as (_ & _ & _ & Hdiv & _).
  destruct (Hdiv t Hp Hm Hh Hc) as [-> Hlen].
  rewrite length_substring0. repeat split; lia.
Qed.

Lemma extractContent_content_div_capped_witness :
  String.length (extractContent long_div_page) = 78.
Proof.
  refine (proj1 (proj2 (extractContent_content_div_capped
                          long_div_page
                          "Fifty characters of text about what the shop sells and a little more than that"
                          eq_refl _ eq_refl eq_refl))).
  intros m [[=] _].
Defined.

(** X15: the decoder reports success exactly for a string that does not
    contain "ERROR:" and is not blank, and it gives an error code
    exactly when it reports a failure. *)
Theorem getScrapeStatus_success_iff (content : option string) :
  (success (getScrapeStatus content) = true <->
   exists c, content = Some c
             /\ JsString.includes c "ERROR:" = false
             /\ JsString.trim c <> "")
  /\ (errorCode (getScrapeStatus content) = None <->
      success (getScrapeStatus content) = true).
Proof.
  unfold getScrapeStatus. destruct content as [c|]; cbn.
  - destruct (JsString.includes c "ERROR:") eqn:Hi; cbn.
    + repeat split; try discriminate.
      intros (c' & [= <-] & Hno & _). congruence.
    + destruct (JsString.trim c) eqn:Ht; cbn.
      * repeat split; try discriminate.
        intros (c' & [= <-] & _ & Hne). rewrite Ht in Hne. congruence.
      * repeat split; auto. intros _. exists c.
        rewrite Ht. repeat split; auto. discriminate.
  - repeat split; try discriminate. intros (c & Hc & _). discriminate.
Qed.

(** X16: an error code, when the decoder gives one, is never empty and
    consists of word characters only (letters, digits, underscore). *)
Theorem getScrapeStatus_errorCode_word (content : option string)
        (code : string) :
  errorCode (getScrapeStatus content) = Some code ->
  code <> "" /\ all_chars is_word_char code = true.
Proof.
  unfold getScrapeStatus. destruct content as [c|]; cbn.
  - destruct (JsString.includes c "ERROR:"); cbn.
    + destruct (errorMatch c) as [w|] eqn:Hw.
      * intros [= <-]. destruct (errorMatch_some c w Hw) as [Hne Hall].
        split; [now intros ->|exact Hall].
      * intros [= <-]. split; [discriminate|reflexivity].
    + destruct (JsString.is_empty (JsString.trim c)); cbn; [|discriminate].
      intros [= <-]. split; [discriminate|reflexivity].
  - intros [= <-]. split; [discriminate|reflexivity].
Qed.

Lemma getScrapeStatus_errorCode_word_witness :
  "TIMEOUT" <> ""
  /\ all_chars is_word_char "TIMEOUT" = true.
Proof.
  apply (getScrapeStatus_errorCode_word
           (Some "ERROR:   TIMEOUT while loading")).
  reflexivity.
Defined.

(** X17: a string that starts with "ERROR:", optional whitespace and a
    word is decoded as a failure with that word as its code. *)
Theorem getScrapeStatus_reads_code (gap code rest : string) :
  all_chars JsString.is_whitespace gap = true ->
  all_chars is_word_char code = true ->
  code <> "" ->
  (rest = "" \/ exists c r, rest = String c r /\ is_word_char c = false) ->
  getScrapeStatus (Some ("ERROR:" ++ gap ++ code ++ rest)%string)
  = mkStatus false (Some code).
Proof.
  intros Hgap Hcode Hne Hrest. unfold getScrapeStatus.
  assert (Hprefix : String.prefix "ERROR:"
                      ("ERROR:" ++ gap ++ code ++ rest)%string = true)
    by (cbn; now destruct (gap ++ code ++ rest)%string).
  assert (Hinc : JsString.includes ("ERROR:" ++ gap ++ code ++ rest)%string
                                   "ERROR:" = true).
  { cbn [append]. cbn [JsString.includes]. cbn [append] in Hprefix.
    now rewrite Hprefix. }
  rewrite Hinc. f_equal.
  assert (Hhere : take_word
                    (JsString.trimStart
                       (drop 6 ("ERROR:" ++ gap ++ code ++ rest)%string))
                  = code).
  { change (drop 6 ("ERROR:" ++ gap ++ code ++ rest)%string)
      with (gap ++ code ++ rest)%string.
    rewrite (trimStart_gap gap _ Hgap).
    destruct code as [|c code]; [congruence|].
    cbn [append JsString.trimStart]. cbn in Hcode.
    apply andb_prop in Hcode. destruct Hcode as [Hc Hcode].
    rewrite (word_char_not_whitespace c Hc).
    apply (take_word_code (String c code) rest); [|exact Hrest].
    cbn. now rewrite Hc. }
  rewrite errorMatch_eq. cbv zeta. rewrite Hprefix, Hhere.
  destruct code; [congruence|reflexivity].
Qed.

Lemma getScrapeStatus_reads_code_witness :
  getScrapeStatus (Some "ERROR: ECONNRESET (socket hang up)")
  = mkStatus false (Some "ECONNRESET").
Proof.
  apply (getScrapeStatus_reads_code " " "ECONNRESET" " (socket hang up)").
  - reflexivity.
  - reflexivity.
  - discriminate.
  - right. exists " "%char, "(socket hang up)". split; reflexivity.
Defined.

(* ================================================================= *)
(** * The table's URL column *)

(** X18: the text shown for a website is never longer than 25
    characters: a URL whose text without protocol and [www.] is at most
    25 characters is shown whole, a longer one as its first 22
    characters followed by three dots, and a missing one as a dash. *)
Theorem truncateUrl_length (url : option string) :
  String.length (truncateUrl url) <= 25
  /\ (forall u, url = Some u -> u <> "" ->
        let displayUrl := stripProtocolAndWww u in
        (String.length displayUrl <= 25 -> truncateUrl url = displayUrl)
        /\ (25 < String.length displayUrl ->
            truncateUrl url
            = (JsString.substring0 22 displayUrl ++ "...")%string
            /\ String.length (truncateUrl url) = 25))
  /\ (url = None \/ url = Some "" -> truncateUrl url = "-").
Proof.
  split; [|split].
  - unfold truncateUrl. destruct url as [u|]; [|cbn; lia].
    destruct (JsString.is_empty u); [cbn; lia|]. cbv zeta.
    destruct (Nat.ltb 25 (String.length (stripProtocolAndWww u))) eqn:Hlong.
    + rewrite length_append, length_substring0. cbn [String.length]. lia.
    + apply Nat.ltb_ge in Hlong. exact Hlong.
  - intros u -> Hu displayUrl. unfold truncateUrl.
    rewrite (url_not_empty u Hu). fold displayUrl. split.
    + intros Hshort. apply Nat.ltb_ge in Hshort. now rewrite Hshort.
    + intros Hlong. pose proof Hlong as Hlt. apply Nat.ltb_lt in Hlong.
      rewrite Hlong. split; [reflexivity|].
      rewrite length_append, length_substring0. cbn [String.length]. lia.
  - intros [-> | ->]; reflexivity.
Qed.

Lemma truncateUrl_length_witness :
  truncateUrl (Some "https://www.acme.example") = "acme.example"
  /\ truncateUrl (Some "http://www.a-very-long-company-name.example/about")
     = "a-very-long-company-na...".
Proof.
  split.
  - destruct (truncateUrl_length (Some "https://www.acme.example"))
      as (_ & Hshown & _).
    destruct (Hshown "https://www.acme.example" eq_refl) as [Hshort _];
      [discriminate|].
    apply Hshort. cbn. lia.
  - destruct (truncateUrl_length
                (Some "http://www.a-very-long-company-name.example/about"))
      as (_ & Hshown & _).
    destruct (Hshown "http://www.a-very-long-company-name.example/about"
                     eq_refl) as [_ Hlong]; [discriminate|].
    apply Hlong. cbn. lia.
Defined.

(* ================================================================= *)
(** * Further properties of the filter and the extractors *)

Section Filter.

Lemma filterM_all_retained (l : list value) :
  (forall c, In c l -> retained c = true) ->
  filterM hasEmail l = Return l.
Proof.
  induction l as [|c rest IH]; intros Hall; cbn; [reflexivity|].
  pose proof (Hall c (or_introl eq_refl)) as Hc. unfold retained in Hc.
  destruct (hasEmail c) as [keep|e]; [|discriminate]. cbn [bind].
  rewrite IH by (intros x Hx; apply Hall; now right).
  cbn [bind]. now rewrite Hc.
Qed.

Lemma extractWebsite_throws (company : value) :
  (exists e, extractWebsite company = Throw e) <-> no_properties company.
Proof.
  unfold extractWebsite, no_properties. split.
  - intros [e H].
    destruct company; cbn in H; auto;
      match type of H with
      | context [Js.get ?p "contact"] =>
          destruct p eqn:Hp; cbn in H; auto; discriminate
      end.
  - intros [->|[->|[H|H]]]; cbn; eauto;
      destruct company; cbn in *; eauto; rewrite H; cbn; eauto.
Qed.

End Filter.

(** X19: [filterCompaniesWithEmails] throws exactly when its argument
    is not an array or one of the places is null, undefined or without a
    properties bag. *)
Theorem filterCompaniesWithEmails_throws (companies : value) :
  (exists e, filterCompaniesWithEmails companies = Throw e) <->
  ((forall items, companies <> JArr items)
   \/ exists items c,
        companies = JArr items /\ In c items /\ no_properties c).
Proof.
  split.
  - intros [e H]. destruct companies as [| | | | |items|];
      try (left; discriminate).
    right. cbn in H.
    destruct (proj1 (filterM_throws hasEmail items)) as (c & e' & Hin & Hc);
      [eauto|].
    exists items, c. repeat split; auto.
    apply hasEmail_throws. eauto.
  - intros [Hnot|(items & c & -> & Hin & Hbad)].
    + destruct companies; cbn; eauto. now destruct (Hnot items).
    + cbn. apply filterM_throws. apply hasEmail_throws in Hbad.
      destruct Hbad as [e He]. eauto.
Qed.

(** X20: filtering is idempotent and never lengthens the list: what the
    filter returns passes the filter unchanged. *)
Theorem filterCompaniesWithEmails_idempotent (items kept : list value) :
  filterCompaniesWithEmails (JArr items) = Return kept ->
  filterCompaniesWithEmails (JArr kept) = Return kept
  /\ List.length kept <= List.length items.
Proof.
  cbn. intros H. apply filterM_hasEmail in H. subst kept. split.
  - apply filterM_all_retained. intros c Hc.
    now apply filter_In in Hc.
  - apply filter_length_le.
Qed.

Lemma filterCompaniesWithEmails_idempotent_witness :
  filterCompaniesWithEmails (JArr [acme; bakery]) = Return [acme; bakery]
  /\ 2 <= 3.
Proof.
  apply (filterCompaniesWithEmails_idempotent [acme; kiosk; bakery]).
  reflexivity.
Defined.

(** X21: [extractEmail] and [extractWebsite] throw exactly on a place
    that is null, undefined or without a properties bag; otherwise each
    returns null or a truthy value, never undefined and never the empty
    string. *)
Theorem extractors_null_or_truthy (company : value) :
  ((exists e, extractEmail company = Throw e) <-> no_properties company)
  /\ ((exists e, extractWebsite company = Throw e) <-> no_properties company)
  /\ (forall v, extractEmail company = Return v ->
                v = JNull \/ Js.truthy v = true)
  /\ (forall v, extractWebsite company = Return v ->
                v = JNull \/ Js.truthy v = true).
Proof.
  split; [|split; [|split]].
  - rewrite extractEmail_hasEmail. unfold no_properties.
    rewrite <- hasEmail_throws.
    destruct (hasEmail company) as [keep|e]; cbn [bind];
      split; intros [e' H]; try discriminate; eauto.
  - apply extractWebsite_throws.
  - intros v. rewrite extractEmail_hasEmail.
    destruct (hasEmail company) as [keep|e]; cbn [bind]; [|discriminate].
    intros [= <-]. unfold Js.or.
    destruct (Js.truthy keep) eqn:Hk; auto.
  - apply extractWebsite_null_or_truthy.
Qed.

Lemma extractors_null_or_truthy_witness :
  JNull = JNull \/ Js.truthy JNull = true.
Proof.
  destruct (extractors_null_or_truthy kiosk) as (_ & _ & Hemail & _).
  apply Hemail. reflexivity.
Defined.

(* ================================================================= *)
(** * The page's search *)

Section Page.

Lemma error_text_not_empty (err : JsError) : Home.error_text err <> "".
Proof.
  unfold Home.error_text. destruct (message err) as [[|c m]|]; discriminate.
Qed.

Lemma unsendable_falsy (x : float) :
  unsendable x = true -> Js.truthy (Home.json_number x) = false.
Proof.
  unfold unsendable, Home.json_number.
  destruct (PrimFloat.is_nan x || PrimFloat.is_infinity x); [reflexivity|].
  cbn [orb]. intros ->. reflexivity.
Qed.

End Page.

(** X22: when a search settles the page is no longer loading, and
    either the response was ok, the error is cleared and the companies
    are those of the response, or an error message with a non-empty
    reason is shown and the companies of the previous search stay. *)
Theorem searchCompanies_settles (fetch : value -> completion Response)
        (st : Home.State) (latitude longitude radius : float) :
  let st' := Home.searchCompanies fetch st latitude longitude radius in
  Home.loading st' = false
  /\ ((Home.error st' = None
       /\ exists response,
            fetch (Home.requestParams latitude longitude radius)
            = Return response
            /\ Home.ok response = true
            /\ Home.companies st' = Home.companiesFound response)
      \/ (exists reason,
            Home.error st'
            = Some ("Error searching companies: " ++ reason)%string
            /\ reason <> ""
            /\ Home.companies st' = Home.companies st)).
Proof.
  intros st'. subst st'. unfold Home.searchCompanies.
  destruct (fetch (Home.requestParams latitude longitude radius))
    as [response|err]; cbn [bind].
  - destruct (Home.ok response) eqn:Hok; cbn [negb].
    + split; [reflexivity|]. left. split; [reflexivity|].
      exists response. auto.
    + split; [reflexivity|]. right. eexists. split; [reflexivity|].
      split; [|reflexivity]. apply error_text_not_empty.
  - split; [reflexivity|]. right. eexists. split; [reflexivity|].
    split; [|reflexivity]. apply error_text_not_empty.
Qed.

(** X23: a search with a latitude or longitude that is NaN, infinite or
    zero is refused by the handler: the page shows the status-400 error
    and keeps the companies it showed before. *)
Theorem searchCompanies_unsendable_coordinate (env : Environment)
        (st : Home.State) (latitude longitude radius : float) :
  unsendable latitude = true \/ unsendable longitude = true ->
  Home.searchCompanies (Home.route env) st latitude longitude radius
  = Home.mkState (Home.companies st) false
      (Some "Error searching companies: HTTP error! status: 400").
Proof.
  intros Hbad.
  assert (Hpost : POST env (Return (Home.requestParams latitude longitude
                                                       radius))
                  = REQUIRED).
  { unfold POST, Home.requestParams. cbn [bind Js.get Js.opt].
    change (Js.lookup "latitude" _) with (Home.json_number latitude).
    change (Js.lookup "longitude" _) with (Home.json_number longitude).
    cbn [bind].
    destruct Hbad as [H|H]; apply unsendable_falsy in H; rewrite H.
    - reflexivity.
    - rewrite orb_true_r. reflexivity. }
  unfold Home.searchCompanies, Home.route. rewrite Hpost. reflexivity.
Qed.

Lemma searchCompanies_unsendable_coordinate_witness :
  Home.searchCompanies (Home.route demo) showing_acme 0 13.405 2
  = Home.mkState [acme_record] false
      (Some "Error searching companies: HTTP error! status: 400").
Proof.
  apply (searchCompanies_unsendable_coordinate demo showing_acme 0 13.405 2).
  left. reflexivity.
Defined.

(** X24: against the handler, the page ends a search in the state that
    the handler's response dictates: the records of a 200 response with
    no error, or the status-400 or status-500 error with the companies
    of the previous search. *)
Theorem searchCompanies_follows_handler (env : Environment)
        (st : Home.State) (latitude longitude radius : float) :
  let response :=
    POST env (Return (Home.requestParams latitude longitude radius)) in
  let st' :=
    Home.searchCompanies (Home.route env) st latitude longitude radius in
  (forall records,
      response = mkResponse (CompaniesBody records) 200 ->
      st' = Home.mkState records false None)
  /\ (response = REQUIRED ->
      st' = Home.mkState (Home.companies st) false
              (Some "Error searching companies: HTTP error! status: 400"))
  /\ (response = FAILED ->
      st' = Home.mkState (Home.companies st) false
              (Some "Error searching companies: HTTP error! status: 500")).
Proof.
  intros response st'. subst response st'.
  unfold Home.searchCompanies, Home.route. cbn [bind].
  repeat split; intros; match goal with H : POST _ _ = _ |- _ => rewrite H end;
    reflexivity.
Qed.

Lemma searchCompanies_follows_handler_witness :
  Home.searchCompanies (Home.route demo) showing_acme 52.52 13.405 2
  = Home.mkState demo_records false None.
Proof.
  destruct (searchCompanies_follows_handler demo showing_acme 52.52 13.405 2)
    as (Hok & _).
  apply Hok. vm_compute. reflexivity.
Defined.
